(** * Appointment API: resolvers, persistence hooks and their properties

    A shallow embedding of the GraphQL resolver module ([Query], [Mutation],
    [toUserDTO], [toAppointmentDTO]) and of the Appointment schema with its
    [pre('validate')] and [pre('save')] hooks.

    Representation choices, used throughout:
    - a MongoDB collection is a finite map from [_id] to the document's fields;
    - an ObjectId is a natural number, and the hex string [oid.toString()]
      is represented by the ObjectId it denotes; a GraphQL [ID] argument is
      the ObjectId that Mongoose casts it to, or a string that the cast
      rejects;
    - a string is held as its UTF-8 encoding;
    - a JS [Date] is its time value in milliseconds ([Z]) or [InvalidDate];
      a date string received from GraphQL is represented by the [Date] that
      [new Date(s)] builds from it, and an ISO string produced by
      [toISOString()] by the time value it renders;
    - [Date.now()] / [new Date()] is the [now] argument of the operation;
      [Appointment.create] reads the clock three times (for the defaults of
      [createdAt] and [updatedAt], then in the [pre('save')] hook), so its
      [now] is a [Clock], the successive readings; the salt [bcrypt.hash]
      draws is the [salt] argument of [register];
    - the resolvers run in a state-and-exception monad over the two
      collections, which also records every database round trip.

    What Mongoose does with the schema is part of the model:
    [Appointment.create] builds the document (casting, the [trim] setter,
    defaults), runs the [pre('validate')] hook, the validators, the
    [pre('save')] hook, and inserts; [findByIdAndUpdate] with
    [runValidators: true] casts the [_id] condition and the update, runs the
    validators of the paths it sets, and writes, without running document
    hooks.

    bcryptjs, jsonwebtoken and the configuration are parameters of
    [register] and [login]. The User model is not among the sources and is
    modelled from the specification. *)

From Stdlib Require Import Ascii Floats.
From stdpp Require Import base option list strings gmap sorting pretty.

Local Open Scope string_scope.
Local Open Scope Z_scope.

(** ** JavaScript values *)

Definition ObjectId := nat.

(** A GraphQL [ID] argument as Mongoose's cast to ObjectId sees it: the
    string of an ObjectId (24 hex digits), or any other string, such as
    'abc', which the cast rejects. *)
Inductive ID : Type :=
  | Oid (i : ObjectId)
  | NotOid.

(** The successive readings of [Date.now()] during one call. *)
Definition Clock := nat → Z.

(** A value that may be [undefined] (a field the request leaves out),
    [null], or present. *)
Inductive Arg (A : Type) : Type :=
  | Undefined
  | Null
  | Val (a : A).
Arguments Undefined {A}.
Arguments Null {A}.
Arguments Val {A} a.

(** A JS [Date] object: a time value, or NaN. *)
Inductive JSDate : Type :=
  | Date (t : Z)
  | InvalidDate.

(** [new Date(x)]: a string gives the date it denotes, [null] the epoch,
    [undefined] an invalid date. *)
Definition new_Date (x : Arg JSDate) : JSDate :=
  match x with
  | Val d => d
  | Null => Date 0
  | Undefined => InvalidDate
  end.

(** [a <= b] on two fields that hold a valid [Date] or are [undefined]:
    a comparison with [undefined] (NaN) is false. *)
Definition js_le (a b : option Z) : bool :=
  match a, b with
  | Some x, Some y => bool_decide (x ≤ y)
  | _, _ => false
  end.

(** [x || dflt] on a string. *)
Definition js_or (x : Arg string) (dflt : string) : string :=
  match x with
  | Val s => if decide (s = "") then dflt else s
  | _ => dflt
  end.

(** The string with the given bytes. *)
Definition bytes (l : list Z) : string :=
  foldr (λ b s, String (ascii_of_N (Z.to_N b)) s) EmptyString l.

(** The code points that [String.prototype.trim] strips, in UTF-8: those of
    WhiteSpace (TAB, VT, FF, ZWNBSP and the category Zs) and of
    LineTerminator (LF, CR, LS, PS). *)
Definition whiteSpace : list string :=
  [bytes [9];              (* U+0009 TAB *)
   bytes [10];             (* U+000A LF *)
   bytes [11];             (* U+000B VT *)
   bytes [12];             (* U+000C FF *)
   bytes [13];             (* U+000D CR *)
   bytes [32];             (* U+0020 SPACE *)
   bytes [194; 160];       (* U+00A0 NO-BREAK SPACE *)
   bytes [225; 154; 128];  (* U+1680 OGHAM SPACE MARK *)
   bytes [226; 128; 128];  (* U+2000 EN QUAD *)
   bytes [226; 128; 129];  (* U+2001 EM QUAD *)
   bytes [226; 128; 130];  (* U+2002 EN SPACE *)
   bytes [226; 128; 131];  (* U+2003 EM SPACE *)
   bytes [226; 128; 132];  (* U+2004 THREE-PER-EM SPACE *)
   bytes [226; 128; 133];  (* U+2005 FOUR-PER-EM SPACE *)
   bytes [226; 128; 134];  (* U+2006 SIX-PER-EM SPACE *)
   bytes [226; 128; 135];  (* U+2007 FIGURE SPACE *)
   bytes [226; 128; 136];  (* U+2008 PUNCTUATION SPACE *)
   bytes [226; 128; 137];  (* U+2009 THIN SPACE *)
   bytes [226; 128; 138];  (* U+200A HAIR SPACE *)
   bytes [226; 128; 168];  (* U+2028 LINE SEPARATOR *)
   bytes [226; 128; 169];  (* U+2029 PARAGRAPH SEPARATOR *)
   bytes [226; 128; 175];  (* U+202F NARROW NO-BREAK SPACE *)
   bytes [226; 129; 159];  (* U+205F MEDIUM MATHEMATICAL SPACE *)
   bytes [227; 128; 128];  (* U+3000 IDEOGRAPHIC SPACE *)
   bytes [239; 187; 191]]. (* U+FEFF ZERO WIDTH NO-BREAK SPACE *)

(** [s] without its prefix [p], when it starts with [p]. *)
Fixpoint dropPrefix (p s : string) : option string :=
  match p, s with
  | EmptyString, _ => Some s
  | String a p', String b s' =>
      if decide (a = b) then dropPrefix p' s' else None
  | String _ _, EmptyString => None
  end.

(** [s] without the first of the strings [ps] that it starts with. *)
Fixpoint dropFirst (ps : list string) (s : string) : option string :=
  match ps with
  | [] => None
  | p :: ps' =>
      match dropPrefix p s with
      | Some r => Some r
      | None => dropFirst ps' s
      end
  end.

(** Drop leading strings of [ps], at most [n] times. *)
Fixpoint dropLeading (ps : list string) (n : nat) (s : string) : string :=
  match n with
  | O => s
  | S k =>
      match dropFirst ps s with
      | Some r => dropLeading ps k r
      | None => s
      end
  end.

(** [String.prototype.trimStart]: every drop removes at least one byte, so
    as many rounds as the string has bytes are enough. *)
Definition trimStart (s : string) : string :=
  dropLeading whiteSpace (String.length s) s.

(** [String.prototype.trimEnd], on the reversed bytes. *)
Definition trimEnd (s : string) : string :=
  String.rev
    (dropLeading (String.rev <$> whiteSpace) (String.length s) (String.rev s)).

(** [String.prototype.trim] *)
Definition trim (s : string) : string := trimEnd (trimStart s).

(** Values stored in the objects the resolvers return. *)
Inductive JSValue : Type :=
  | JNull
  | JString (s : string)
  | JIdString (i : ObjectId)   (* [oid.toString()] *)
  | JISOString (t : Z)         (* [date.toISOString()] *)
  | JDate (t : Z).             (* a [Date] object *)

(** An object literal: its keys in order, with their values. *)
Definition JSObject := list (string * JSValue).

Definition nullable (o : option string) : JSValue :=
  match o with
  | Some s => JString s
  | None => JNull
  end.

(** ** Documents *)

Record Document (F : Type) : Type := mkDocument {
  _id : ObjectId;
  fields : F
}.
Arguments mkDocument {F} _ _.
Arguments _id {F} _.
Arguments fields {F} _.

Module User.
(** Modelled from the spec: the User model (models/user.model.js) is not
    part of the sources. A user has an email, a password hash, a display
    name, a role and a creation timestamp. *)
Record t : Type := mk {
  email : string;
  passwordHash : string;
  name : option string;
  role : string;
  createdAt : Z
}.
End User.

Module Appointment.
(** A stored appointment: the schema's paths after casting and validation.
    [description] and [status] may hold [null]. *)
Record t : Type := mk {
  title : string;
  description : option string;
  startTime : Z;
  endTime : Z;
  userId : ObjectId;
  status : option string;
  createdAt : Z;
  updatedAt : Z
}.

(** The object handed to [Appointment.create]. *)
Record init : Type := mkInit {
  i_title : string;
  i_description : Arg string;
  i_startTime : JSDate;
  i_endTime : JSDate;
  i_userId : ObjectId;
  i_status : string
}.

(** The document [this] seen by the hooks: paths after casting, setters
    and defaults. A date that failed to cast is [undefined] ([None]). *)
Record draft : Type := mkDraft {
  d_title : string;
  d_description : option string;
  d_startTime : option Z;
  d_endTime : option Z;
  d_userId : ObjectId;
  d_status : string;
  d_createdAt : Z;
  d_updatedAt : Z
}.

(** The update document built by [updateAppointment]; an absent key is
    [Undefined] / [None]. *)
Record update : Type := mkUpdate {
  u_title : Arg string;
  u_description : Arg string;
  u_startTime : option JSDate;
  u_endTime : option JSDate;
  u_status : Arg string;
  u_updatedAt : Z
}.

Definition statusEnum : list string :=
  ["pending"; "confirmed"; "cancelled"; "completed"].
End Appointment.

(** ** Errors *)

Inductive Error : Type :=
  | AuthenticationRequired   (* 'Authentication required' *)
  | NotFound                 (* 'Appointment not found' *)
  | AccessDenied             (* 'Access denied' *)
  | DuplicateEmail           (* 'Email already in use' *)
  | InvalidCredentials       (* 'Invalid credentials' *)
  | InvalidTimeRange         (* 'End time must be after start time' *)
  | CastError                (* a value the schema cannot cast *)
  | ValidationError          (* a schema validator ([required], [enum]) failed *)
  | DuplicateKey.            (* unique index violation *)

Definition message (e : Error) : string :=
  match e with
  | AuthenticationRequired => "Authentication required"
  | NotFound => "Appointment not found"
  | AccessDenied => "Access denied"
  | DuplicateEmail => "Email already in use"
  | InvalidCredentials => "Invalid credentials"
  | InvalidTimeRange => "End time must be after start time"
  | CastError => "Cast failed"
  | ValidationError => "Validation failed"
  | DuplicateKey => "E11000 duplicate key error"
  end.

Inductive Result (A : Type) : Type :=
  | Ok (a : A)
  | Throw (e : Error).
Arguments Ok {A} a.
Arguments Throw {A} e.

(** ** The store and the resolver monad *)

Inductive Collection : Type := Users | Appointments.

Inductive DbOp : Type :=
  | Read (c : Collection)
  | Write (c : Collection).

Record Store : Type := mkStore {
  users : gmap ObjectId User.t;
  appointments : gmap ObjectId Appointment.t;
  trace : list DbOp
}.

Definition M (A : Type) : Type := Store → Store * Result A.

Definition ret {A} (a : A) : M A := λ s, (s, Ok a).

Definition throw {A} (e : Error) : M A := λ s, (s, Throw e).

Definition bind {A B} (m : M A) (f : A → M B) : M B :=
  λ s, match m s with
       | (s', Ok a) => f a s'
       | (s', Throw e) => (s', Throw e)
       end.

Notation "x <- m ;; k" := (bind m (λ x, k))
  (at level 100, m at next level, right associativity, only parsing).
Notation "m ;;; k" := (bind m (λ _, k))
  (at level 100, right associativity, only parsing).

(** One round trip to the database. *)
Definition logged (op : DbOp) (s : Store) : Store :=
  mkStore (users s) (appointments s) (trace s ++ [op]).

Definition db (op : DbOp) : M unit := λ s, (logged op s, Ok tt).

Definition getUsers : M (gmap ObjectId User.t) := λ s, (s, Ok (users s)).

Definition getAppointments : M (gmap ObjectId Appointment.t) :=
  λ s, (s, Ok (appointments s)).

Definition putUsers (us : gmap ObjectId User.t) : M unit :=
  λ s, (mkStore us (appointments s) (trace s), Ok tt).

Definition putAppointments (as_ : gmap ObjectId Appointment.t) : M unit :=
  λ s, (mkStore (users s) as_ (trace s), Ok tt).

(** Lift a pure check that may fail. *)
Definition lift {A} (r : Result A) : M A := λ s, (s, r).

(** The documents of a collection, in the store's order. *)
Definition documents {F} (c : gmap ObjectId F) : list (Document F) :=
  (λ p, mkDocument p.1 p.2) <$> map_to_list c.


(** ** The Appointment schema (models/appointment.model.js) *)

Module AppointmentSchema.
Import Appointment.

(** Casting of a [Date] path: an invalid date does not cast. *)
Definition castDate (d : JSDate) : option Z :=
  match d with
  | Date t => Some t
  | InvalidDate => None
  end.

(** The [default] of a path applies to [undefined] only. *)
Definition withDefault (x : Arg string) (dflt : string) : option string :=
  match x with
  | Undefined => Some dflt
  | Null => None
  | Val s => Some s
  end.

(** [new Appointment(obj)]: casting, the [trim] setter of [title] and the
    defaults of [description], [createdAt] and [updatedAt], each of the last
    two a reading of [Date.now]. A date that fails to cast leaves its path
    unset. *)
Definition construct (now : Clock) (obj : init) : draft :=
  {| d_title := trim (i_title obj);
     d_description := withDefault (i_description obj) "";
     d_startTime := castDate (i_startTime obj);
     d_endTime := castDate (i_endTime obj);
     d_userId := i_userId obj;
     d_status := i_status obj;
     d_createdAt := now 0%nat;
     d_updatedAt := now 1%nat |}.

(** [pre('validate')]: validate that endTime is after startTime. *)
Definition preValidate (this : draft) : Result unit :=
  if js_le (d_endTime this) (d_startTime this)
  then Throw InvalidTimeRange
  else Ok tt.

(** [pre('save')]: update the updatedAt field before saving. *)
Definition preSave (now : Z) (this : t) : t :=
  {| title := title this;
     description := description this;
     startTime := startTime this;
     endTime := endTime this;
     userId := userId this;
     status := status this;
     createdAt := createdAt this;
     updatedAt := now |}.

(** The [required] validator of a string path. *)
Definition required (s : string) : bool := bool_decide (s ≠ "").

(** The [enum] validator of [status]. *)
Definition enumValidator (s : string) : bool :=
  bool_decide (s ∈ statusEnum).

(** Document validation: cast failures, [required], [enum]. *)
Definition validate (this : draft) : Result t :=
  match d_startTime this, d_endTime this with
  | Some st, Some en =>
      if required (d_title this) && enumValidator (d_status this)
      then Ok {| title := d_title this;
                 description := d_description this;
                 startTime := st;
                 endTime := en;
                 userId := d_userId this;
                 status := Some (d_status this);
                 createdAt := d_createdAt this;
                 updatedAt := d_updatedAt this |}
      else Throw ValidationError
  | _, _ => Throw ValidationError
  end.

(** The [$set] document of an update after casting. *)
Record setDoc : Type := mkSet {
  s_title : Arg string;
  s_description : Arg string;
  s_startTime : option Z;
  s_endTime : option Z;
  s_status : Arg string;
  s_updatedAt : Z
}.

Definition castDateKey (d : option JSDate) : Result (option Z) :=
  match d with
  | None => Ok None
  | Some (Date t) => Ok (Some t)
  | Some InvalidDate => Throw CastError
  end.

Definition castTitle (x : Arg string) : Arg string :=
  match x with
  | Val s => Val (trim s)
  | other => other
  end.

(** Casting of the update document: setters run, an invalid date throws. *)
Definition castUpdate (u : update) : Result setDoc :=
  match castDateKey (u_startTime u), castDateKey (u_endTime u) with
  | Ok st, Ok en =>
      Ok {| s_title := castTitle (u_title u);
            s_description := u_description u;
            s_startTime := st;
            s_endTime := en;
            s_status := u_status u;
            s_updatedAt := u_updatedAt u |}
  | Throw e, _ => Throw e
  | _, Throw e => Throw e
  end.

(** Update validators ([runValidators: true]): the validators of the paths
    the update sets. [title] is required, so neither [null] nor the empty
    string passes; [status] must be [null] or in the enum. The
    [pre('validate')] hook is document middleware and is not one of them. *)
Definition updateValidators (u : setDoc) : Result unit :=
  let titleOk := match s_title u with
                 | Undefined => true
                 | Null => false
                 | Val s => required s
                 end in
  let statusOk := match s_status u with
                  | Val s => enumValidator s
                  | _ => true
                  end in
  if titleOk && statusOk then Ok tt else Throw ValidationError.

(** The effect of [$set] on a stored document. *)
Definition applySet (u : setDoc) (old : t) : t :=
  {| title := match s_title u with Val s => s | _ => title old end;
     description := match s_description u with
                    | Undefined => description old
                    | Null => None
                    | Val s => Some s
                    end;
     startTime := default (startTime old) (s_startTime u);
     endTime := default (endTime old) (s_endTime u);
     userId := userId old;
     status := match s_status u with
               | Undefined => status old
               | Null => None
               | Val s => Some s
               end;
     createdAt := createdAt old;
     updatedAt := s_updatedAt u |}.
End AppointmentSchema.

(** ** The Appointment model: the queries the resolvers issue *)

Module AppointmentModel.
Import Appointment AppointmentSchema.

(** The two filters in use: [{}] and [{ userId }]. *)
Inductive Filter : Type :=
  | All
  | ByUserId (u : ObjectId).

Definition matches (f : Filter) (d : Document t) : Prop :=
  match f with
  | All => True
  | ByUserId u => userId (fields d) = u
  end.

Global Instance matches_dec f d : Decision (matches f d).
Proof. destruct f; simpl; apply _. Defined.

(** [sort({ startTime: 1 })] *)
Definition byStartTime (a b : Document t) : Prop :=
  startTime (fields a) ≤ startTime (fields b).

Global Instance byStartTime_dec a b : Decision (byStartTime a b).
Proof. unfold byStartTime; apply _. Defined.

(** [Appointment.find(filter).sort({ startTime: 1 })] *)
Definition find (f : Filter) : M (list (Document t)) :=
  db (Read Appointments) ;;;
  c <- getAppointments ;;
  ret (merge_sort byStartTime (filter (matches f) (documents c))).

(** The cast of the [_id] condition of a query: a string that is not an
    ObjectId throws a CastError, before the database is reached. *)
Definition castId (id : ID) : Result ObjectId :=
  match id with
  | Oid i => Ok i
  | NotOid => Throw CastError
  end.

(** [Appointment.findById(id)] *)
Definition findById (id : ID) : M (option (Document t)) :=
  i <- lift (castId id) ;;
  db (Read Appointments) ;;;
  c <- getAppointments ;;
  ret (mkDocument i <$> c !! i).

(** [Appointment.create(obj)]: build the document, run the
    [pre('validate')] hook, validate, run the [pre('save')] hook, which
    reads the clock again, and insert. *)
Definition create (now : Clock) (obj : init) : M (Document t) :=
  let this := construct now obj in
  lift (preValidate this) ;;;
  doc <- lift (validate this) ;;
  let doc := preSave (now 2%nat) doc in
  db (Write Appointments) ;;;
  c <- getAppointments ;;
  let id := fresh (dom c) in
  putAppointments (<[id := doc]> c) ;;;
  ret (mkDocument id doc).

(** [Appointment.findByIdAndUpdate(id, update, { new: true,
    runValidators: true })]: cast the condition and the update, run the
    update validators, then set the paths in the database and return the
    new document. This is
    a query: the [pre('validate')] and [pre('save')] hooks, which are
    document middleware, do not run, and no document is loaded on which
    they could compare [endTime] with [startTime]. *)
Definition findByIdAndUpdate (id : ID) (u : update)
    : M (option (Document t)) :=
  i <- lift (castId id) ;;
  u' <- lift (castUpdate u) ;;
  lift (updateValidators u') ;;;
  db (Write Appointments) ;;;
  c <- getAppointments ;;
  match c !! i with
  | None => ret None
  | Some old =>
      let new := applySet u' old in
      putAppointments (<[i := new]> c) ;;;
      ret (Some (mkDocument i new))
  end.

(** [Appointment.findByIdAndDelete(id)] *)
Definition findByIdAndDelete (id : ID) : M (option (Document t)) :=
  i <- lift (castId id) ;;
  db (Write Appointments) ;;;
  c <- getAppointments ;;
  putAppointments (delete i c) ;;;
  ret (mkDocument i <$> c !! i).
End AppointmentModel.

(** ** The User model *)

Module UserModel.
Import User.

(** [sort({ createdAt: -1 })] *)
Definition byCreatedAtDesc (a b : Document t) : Prop :=
  createdAt (fields b) ≤ createdAt (fields a).

Global Instance byCreatedAtDesc_dec a b : Decision (byCreatedAtDesc a b).
Proof. unfold byCreatedAtDesc; apply _. Defined.

(** [User.find({}).sort({ createdAt: -1 })] *)
Definition find : M (list (Document t)) :=
  db (Read Users) ;;;
  c <- getUsers ;;
  ret (merge_sort byCreatedAtDesc (documents c)).

Definition hasEmail (e : string) (d : Document t) : Prop :=
  email (fields d) = e.

Global Instance hasEmail_dec e d : Decision (hasEmail e d).
Proof. unfold hasEmail; apply _. Defined.

(** [User.findOne({ email })] *)
Definition findOne (e : string) : M (option (Document t)) :=
  db (Read Users) ;;;
  c <- getUsers ;;
  ret (head (filter (hasEmail e) (documents c))).

(** Modelled from the spec: [User.create({ email, passwordHash, name })]
    of the missing User model. Emails are unique, enforced at creation;
    the role a new user receives is [defaultRole], the creation timestamp
    is the current time. *)
Definition create (defaultRole : string) (now : Z)
    (e h : string) (n : option string) : M (Document t) :=
  db (Write Users) ;;;
  c <- getUsers ;;
  if decide (filter (hasEmail e) (documents c) = [])
  then
    let id := fresh (dom c) in
    let u := mk e h n defaultRole now in
    putUsers (<[id := u]> c) ;;;
    ret (mkDocument id u)
  else throw DuplicateKey.
End UserModel.

(** ** The resolver module *)

Definition toUserDTO (userDoc : option (Document User.t)) : option JSObject :=
  match userDoc with
  | None => None
  | Some d =>
      let u := fields d in
      Some [("id", JIdString (_id d));
            ("email", JString (User.email u));
            ("name", nullable (User.name u));
            ("role", JString (User.role u));
            ("createdAt", JDate (User.createdAt u))]
  end.

Definition toAppointmentDTO (appointmentDoc : option (Document Appointment.t))
    : option JSObject :=
  match appointmentDoc with
  | None => None
  | Some d =>
      let a := fields d in
      Some [("id", JIdString (_id d));
            ("title", JString (Appointment.title a));
            ("description", nullable (Appointment.description a));
            ("startTime", JISOString (Appointment.startTime a));
            ("endTime", JISOString (Appointment.endTime a));
            ("userId", JIdString (Appointment.userId a));
            ("status", nullable (Appointment.status a));
            ("createdAt", JISOString (Appointment.createdAt a));
            ("updatedAt", JISOString (Appointment.updatedAt a))]
  end.

(** The request context: the authenticated user's document, or [null]. *)
Definition Context := option (Document User.t).

Definition isAdmin (user : Document User.t) : bool :=
  bool_decide (User.role (fields user) = "admin").

(** [user.role !== 'admin' && appointment.userId.toString() !==
    user._id.toString()] *)
Definition denied (user : Document User.t)
    (appointment : Document Appointment.t) : bool :=
  negb (isAdmin user)
  && bool_decide (Appointment.userId (fields appointment) ≠ _id user).

(** [input AppointmentInput]; [startTime] and [endTime] are non-null strings,
    held as the dates they denote. *)
Record AppointmentInput : Type := mkAppointmentInput {
  in_title : string;
  in_description : Arg string;
  in_startTime : JSDate;
  in_endTime : JSDate;
  in_status : Arg string
}.

(** [input AppointmentUpdateInput]: every field may be left out or null. *)
Record AppointmentUpdateInput : Type := mkAppointmentUpdateInput {
  up_title : Arg string;
  up_description : Arg string;
  up_startTime : Arg JSDate;
  up_endTime : Arg JSDate;
  up_status : Arg string
}.

(** [type AuthPayload] *)
Record AuthPayload : Type := mkAuthPayload {
  token : string;
  user : option JSObject
}.

Module Query.
Definition me (user : Context) : M (option JSObject) :=
  ret (match user with
       | Some _ => toUserDTO user
       | None => None
       end).

Definition users : M (list (option JSObject)) :=
  us <- UserModel.find ;;
  ret ((λ u, toUserDTO (Some u)) <$> us).

Definition appointments (user : Context) : M (list (option JSObject)) :=
  match user with
  | None => throw AuthenticationRequired
  | Some u =>
      let filter := if isAdmin u
                    then AppointmentModel.All
                    else AppointmentModel.ByUserId (_id u) in
      found <- AppointmentModel.find filter ;;
      ret ((λ a, toAppointmentDTO (Some a)) <$> found)
  end.

Definition appointment (id : ID) (user : Context)
    : M (option JSObject) :=
  match user with
  | None => throw AuthenticationRequired
  | Some u =>
      found <- AppointmentModel.findById id ;;
      match found with
      | None => throw NotFound
      | Some a =>
          if denied u a then throw AccessDenied
          else ret (toAppointmentDTO (Some a))
      end
  end.

Definition myAppointments (user : Context) : M (list (option JSObject)) :=
  match user with
  | None => throw AuthenticationRequired
  | Some u =>
      found <- AppointmentModel.find (AppointmentModel.ByUserId (_id u)) ;;
      ret ((λ a, toAppointmentDTO (Some a)) <$> found)
  end.
End Query.

Module Mutation.
Section Auth.
(** The libraries and configuration behind [register] and [login]:
    [bcrypt.hash(password, rounds)] with the salt it draws,
    [bcrypt.compare(password, hash)],
    [jwt.sign({ sub }, jwtSecret, { expiresIn: jwtExpiresIn })] at a
    given time, and the role the User model gives a new user. *)
Variable bcrypt_hash : string → nat → string → string.
Variable bcrypt_compare : string → string → bool.
Variable jwt_sign : ObjectId → Z → string.
Variable defaultRole : string.

Definition register (now : Z) (salt : string)
    (email password : string) (name : option string) : M AuthPayload :=
  existing <- UserModel.findOne email ;;
  match existing with
  | Some _ => throw DuplicateEmail
  | None =>
      let passwordHash := bcrypt_hash password 10%nat salt in
      u <- UserModel.create defaultRole now email passwordHash name ;;
      let token := jwt_sign (_id u) now in
      ret (mkAuthPayload token (toUserDTO (Some u)))
  end.

Definition login (now : Z) (email password : string) : M AuthPayload :=
  found <- UserModel.findOne email ;;
  match found with
  | None => throw InvalidCredentials
  | Some u =>
      if bcrypt_compare password (User.passwordHash (fields u))
      then
        let token := jwt_sign (_id u) now in
        ret (mkAuthPayload token (toUserDTO (Some u)))
      else throw InvalidCredentials
  end.
End Auth.

Definition createAppointment (now : Clock) (input : AppointmentInput)
    (user : Context) : M (option JSObject) :=
  match user with
  | None => throw AuthenticationRequired
  | Some u =>
      a <- AppointmentModel.create now
             {| Appointment.i_title := in_title input;
                Appointment.i_description := in_description input;
                Appointment.i_startTime := new_Date (Val (in_startTime input));
                Appointment.i_endTime := new_Date (Val (in_endTime input));
                Appointment.i_userId := _id u;
                Appointment.i_status := js_or (in_status input) "pending" |} ;;
      ret (toAppointmentDTO (Some a))
  end.

(** [if (x !== undefined) updateData.k = new Date(x)] *)
Definition dateKey (x : Arg JSDate) : option JSDate :=
  match x with
  | Undefined => None
  | _ => Some (new_Date x)
  end.

(** [if (input.k !== undefined) updateData.k = input.k], and the time of
    the update. *)
Definition updateData (now : Z) (input : AppointmentUpdateInput)
    : Appointment.update :=
  {| Appointment.u_title := up_title input;
     Appointment.u_description := up_description input;
     Appointment.u_startTime := dateKey (up_startTime input);
     Appointment.u_endTime := dateKey (up_endTime input);
     Appointment.u_status := up_status input;
     Appointment.u_updatedAt := now |}.

Definition updateAppointment (now : Z) (id : ID)
    (input : AppointmentUpdateInput) (user : Context)
    : M (option JSObject) :=
  match user with
  | None => throw AuthenticationRequired
  | Some u =>
      found <- AppointmentModel.findById id ;;
      match found with
      | None => throw NotFound
      | Some a =>
          if denied u a then throw AccessDenied
          else
            updated <- AppointmentModel.findByIdAndUpdate id
                         (updateData now input) ;;
            ret (toAppointmentDTO updated)
      end
  end.

Definition deleteAppointment (id : ID) (user : Context) : M bool :=
  match user with
  | None => throw AuthenticationRequired
  | Some u =>
      found <- AppointmentModel.findById id ;;
      match found with
      | None => throw NotFound
      | Some a =>
          if denied u a then throw AccessDenied
          else
            AppointmentModel.findByIdAndDelete id ;;;
            ret true
      end
  end.
End Mutation.

(** ** The resolver map and the operations of the schema *)

(** [module.exports = { Query: {...}, Mutation: {...} }] read with the
    operations that [type Query] and [type Mutation] declare: a call names
    one operation with its arguments, and is routed to its resolver. *)
Module Api.
Inductive Operation : Type :=
  | OpMe
  | OpUsers
  | OpAppointments
  | OpAppointment (id : ID)
  | OpMyAppointments
  | OpRegister (email password : string) (name : option string)
  | OpLogin (email password : string)
  | OpCreateAppointment (input : AppointmentInput)
  | OpUpdateAppointment (id : ID) (input : AppointmentUpdateInput)
  | OpDeleteAppointment (id : ID).

(** What a resolver hands back. *)
Inductive Reply : Type :=
  | RObject (o : option JSObject)
  | RList (l : list (option JSObject))
  | RAuth (p : AuthPayload)
  | RBoolean (b : bool).

(** What a request reads from its surroundings: the clock, and the salt
    bcrypt draws. *)
Record Env : Type := mkEnv {
  env_clock : Clock;
  env_salt : string
}.

(** The first reading of the clock, for the resolvers that read it once. *)
Definition env_now (e : Env) : Z := env_clock e 0%nat.

(** One request: the user of its context, its surroundings, its operation. *)
Record Call : Type := mkCall {
  caller : Context;
  env : Env;
  operation : Operation
}.

(** The queries, and [login]: the operations whose resolvers issue reads
    only. *)
Definition readsOnly (op : Operation) : bool :=
  match op with
  | OpMe | OpUsers | OpAppointments | OpAppointment _ | OpMyAppointments
  | OpLogin _ _ => true
  | _ => false
  end.

Section Resolve.
Variable bcrypt_hash : string → nat → string → string.
Variable bcrypt_compare : string → string → bool.
Variable jwt_sign : ObjectId → Z → string.
Variable defaultRole : string.

Definition resolve (c : Call) : M Reply :=
  let now := env_now (env c) in
  match operation c with
  | OpMe => r <- Query.me (caller c) ;; ret (RObject r)
  | OpUsers => r <- Query.users ;; ret (RList r)
  | OpAppointments => r <- Query.appointments (caller c) ;; ret (RList r)
  | OpAppointment id => r <- Query.appointment id (caller c) ;; ret (RObject r)
  | OpMyAppointments => r <- Query.myAppointments (caller c) ;; ret (RList r)
  | OpRegister e p n =>
      r <- Mutation.register bcrypt_hash jwt_sign defaultRole now
             (env_salt (env c)) e p n ;;
      ret (RAuth r)
  | OpLogin e p =>
      r <- Mutation.login bcrypt_compare jwt_sign now e p ;; ret (RAuth r)
  | OpCreateAppointment input =>
      r <- Mutation.createAppointment (env_clock (env c)) input (caller c) ;;
      ret (RObject r)
  | OpUpdateAppointment id input =>
      r <- Mutation.updateAppointment now id input (caller c) ;;
      ret (RObject r)
  | OpDeleteAppointment id =>
      r <- Mutation.deleteAppointment id (caller c) ;; ret (RBoolean r)
  end.

(** The store after a sequence of requests, served one after the other. *)
Definition run (calls : list Call) (s : Store) : Store :=
  foldl (λ s c, (resolve c s).1) s calls.
End Resolve.
End Api.

(** ** The example client (examples/test-graphql.js)

    The script talks to a server over HTTP. The server, the clock and the
    timers are the environment: a state [E] with [exchange] (one
    [http.request], answered with a status and a body or failed with an
    error), [dateNow] ([Date.now()]) and [sleep] ([setTimeout]). The JSON
    codec and the local-time arithmetic of [Date] are parameters too. Every
    request is recorded in the order it is sent. What the script prints on
    the console is not part of the model. *)

Module Client.
(** A JSON value; numbers are IEEE doubles. *)
Unset Elimination Schemes.
Inductive Json : Type :=
  | JsNull
  | JsBool (b : bool)
  | JsNumber (x : float)
  | JsString (s : string)
  | JsArray (items : list Json)
  | JsObject (members : list (string * Json)).
Set Elimination Schemes.

(** A value of the script: a JSON value, or [undefined] ([None]). *)
Definition Value := option Json.

(** The value in a condition. *)
Definition truthyJson (v : Json) : bool :=
  match v with
  | JsNull => false
  | JsBool b => b
  | JsNumber x => negb (PrimFloat.eqb x PrimFloat.zero || PrimFloat.is_nan x)
  | JsString s => bool_decide (s ≠ "")
  | JsArray _ | JsObject _ => true
  end.

Definition truthy (v : Value) : bool :=
  match v with
  | Some x => truthyJson x
  | None => false
  end.

Fixpoint assoc (key : string) (ms : list (string * Json)) : Value :=
  match ms with
  | [] => None
  | (k, v) :: rest => if decide (k = key) then Some v else assoc key rest
  end.

(** [v.key] for a [v] that is not null: a member of an object, [undefined]
    on anything else (none of the keys the script reads is a property of a
    string, number, boolean or array). *)
Definition member (key : string) (v : Json) : Value :=
  match v with
  | JsObject ms => assoc key ms
  | _ => None
  end.

(** [v?.key] *)
Definition optional (v : Value) (key : string) : Value :=
  match v with
  | None | Some JsNull => None
  | Some x => member key x
  end.

(** An object literal: a member whose value is [undefined] is not
    serialised. *)
Definition object (ms : list (string * Value)) : Json :=
  JsObject (omap (λ m, pair m.1 <$> m.2) ms).

(** The options of [http.request], and the data written to the request. *)
Record Request : Type := mkRequest {
  hostname : string;
  port : Z;
  path : string;
  method : string;
  headers : list (string * string);
  written : option string
}.

(** How an exchange ends: the ['end'] event of a response, or the
    ['error'] event of the request. *)
Inductive Outcome : Type :=
  | Answered (statusCode : Z) (data : string)
  | Failed (message : string).

(** The errors the promises reject with. *)
Inductive Rejection : Type :=
  | RequestFailed (message : string)     (* 'Request failed: ...' *)
  | ParseFailed                          (* 'Failed to parse response: ...' *)
  | GraphQLRequestFailed (error : Json)  (* 'GraphQL request failed: ...' *)
  | GraphQLErrors (errors : Json)        (* 'GraphQL errors: ...' *)
  | TimedOut.            (* 'Timed out waiting for /graphql to be ready' *)

Inductive Settled (A : Type) : Type :=
  | Resolved (a : A)
  | Rejected (r : Rejection).
Arguments Resolved {A} a.
Arguments Rejected {A} r.

(** [{ status, data }] *)
Record RestResult : Type := mkRestResult {
  status : Z;
  data : Json
}.

(** The query document of [testMe]. *)
Definition meQuery : string :=
  "
        query {
            me {
                id
                email
                name
                role
                createdAt
            }
        }
    ".

(** The query document of [testCreateAppointment]. *)
Definition createAppointmentMutation : string :=
  "
        mutation CreateAppointment($input: AppointmentInput!) {
            createAppointment(input: $input) {
                id
                title
                description
                startTime
                endTime
                status
                userId
                createdAt
            }
        }
    ".

(** The query document of [testGetAppointments]. *)
Definition appointmentsQuery : string :=
  "
        query {
            appointments {
                id
                title
                description
                startTime
                endTime
                status
                userId
            }
        }
    ".

(** The query document of [testGetAppointment]. *)
Definition appointmentQuery : string :=
  "
        query GetAppointment($id: ID!) {
            appointment(id: $id) {
                id
                title
                description
                startTime
                endTime
                status
            }
        }
    ".

(** The query document of [testUpdateAppointment]. *)
Definition updateAppointmentMutation : string :=
  "
        mutation UpdateAppointment($id: ID!, $input: AppointmentUpdateInput!) {
            updateAppointment(id: $id, input: $input) {
                id
                title
                description
                status
                updatedAt
            }
        }
    ".

(** The query document of [testDeleteAppointment]. *)
Definition deleteAppointmentMutation : string :=
  "
        mutation DeleteAppointment($id: ID!) {
            deleteAppointment(id: $id)
        }
    ".

Section Script.
Variable E : Type.
Variable exchange : Request → E → E * Outcome.
Variable dateNow : E → Z.
Variable sleep : Z → E → E.

(** [JSON.stringify], [JSON.parse] ([None] when it throws), the string a
    template literal makes of a value that is not a string, the effect of
    [d.setHours(d.getHours() + 1)] on a time value, and [toISOString]. *)
Variable stringify : Json → string.
Variable parse : string → option Json.
Variable describe : Json → string.
Variable plusOneHour : Z → Z.
Variable toISOString : Z → string.

(** The environment and the requests sent so far. *)
Record World : Type := mkWorld {
  environment : E;
  sent : list Request
}.

Definition C (A : Type) : Type := World → World * A.

Definition pure {A} (a : A) : C A := λ w, (w, a).

Definition andThen {A B} (m : C A) (f : A → C B) : C B :=
  λ w, let '(w', a) := m w in f a w'.

Notation "x <~ m ;; k" := (andThen m (λ x, k))
  (at level 100, m at next level, right associativity, only parsing).

(** [http.request(options, ...)], the data written, [req.end()], and the
    event that ends the exchange. *)
Definition send (r : Request) : C Outcome :=
  λ w, let '(e, o) := exchange r (environment w) in
       (mkWorld e (sent w ++ [r]), o).

(** [`${v}`] *)
Definition template (v : Json) : string :=
  match v with
  | JsString s => s
  | other => describe other
  end.

(** [...(token && { 'Authorization': `Bearer ${token}` })] *)
Definition authorization (token : Value) : list (string * string) :=
  match token with
  | Some t => if truthyJson t then [("Authorization", "Bearer " +:+ template t)]
              else []
  | None => []
  end.

(** A string in a condition: [null] and the empty string are falsy. *)
Definition nonEmpty (s : option string) : option string :=
  match s with
  | Some x => if decide (x = "") then None else Some x
  | None => None
  end.

(** The [options] of [restRequest], with the data it writes. *)
Definition restOptions (method path : string) (body token : Value) : Request :=
  let postData := match body with
                  | Some b => if truthyJson b then Some (stringify b) else None
                  | None => None
                  end in
  {| hostname := "localhost";
     port := 4000;
     path := path;
     method := method;
     headers :=
       [("Content-Type", "application/json")]
       ++ match nonEmpty postData with
          | Some d => [("Content-Length", pretty (String.length d))]
          | None => []
          end
       ++ authorization token;
     written := nonEmpty postData |}.

Definition restRequest (method path : string) (body token : Value)
    : C (Settled RestResult) :=
  o <~ send (restOptions method path body token) ;;
  match o with
  | Answered statusCode data =>
      if decide (data = "")
      then pure (Resolved (mkRestResult statusCode (JsObject [])))
      else match parse data with
           | Some result => pure (Resolved (mkRestResult statusCode result))
           | None => pure (Rejected ParseFailed)
           end
  | Failed message => pure (Rejected (RequestFailed message))
  end.

(** [{ query, ...(variables && { variables }) }] *)
Definition graphqlBody (query : string) (variables : Value) : Json :=
  object [("query", Some (JsString query));
          ("variables", if truthy variables then variables else None)].

(** The [options] of [graphqlRequest], with the data it writes. *)
Definition graphqlOptions (query : string) (variables token : Value)
    : Request :=
  let postData := stringify (graphqlBody query variables) in
  {| hostname := "localhost";
     port := 4000;
     path := "/graphql";
     method := "POST";
     headers :=
       [("Content-Type", "application/json");
        ("Content-Length", pretty (String.length postData))]
       ++ authorization token;
     written := Some postData |}.

Definition graphqlRequest (query : string) (variables token : Value)
    : C (Settled Json) :=
  o <~ send (graphqlOptions query variables token) ;;
  match o with
  | Answered statusCode data =>
      if decide (statusCode ≠ 200)
      then
        if decide (data = "")
        then pure (Rejected
                     (GraphQLRequestFailed
                        (JsObject [("message",
                                    JsString ("HTTP " +:+ pretty statusCode))])))
        else match parse data with
             | Some error => pure (Rejected (GraphQLRequestFailed error))
             | None => pure (Rejected ParseFailed)
             end
      else
        match parse data with
        | None => pure (Rejected ParseFailed)
        | Some JsNull => pure (Rejected ParseFailed)
        | Some result =>
            match member "errors" result with
            | Some errors =>
                if truthyJson errors then pure (Rejected (GraphQLErrors errors))
                else pure (Resolved result)
            | None => pure (Resolved result)
            end
        end
  | Failed message => pure (Rejected (RequestFailed message))
  end.

(** One probe of [waitForGraphQLEndpoint]. *)
Definition probe : Request :=
  {| hostname := "localhost";
     port := 4000;
     path := "/graphql";
     method := "GET";
     headers := [];
     written := None |}.

(** The [attempt] closure of [waitForGraphQLEndpoint], for at most [fuel]
    probes; [None] when they are used up. *)
Fixpoint attempt (fuel : nat) (start timeoutMs intervalMs : Z) (w : World)
    : option (World * Settled bool) :=
  match fuel with
  | O => None
  | S fuel' =>
      let '(w1, o) := send probe w in
      let again :=
        if decide (timeoutMs ≤ dateNow (environment w1) - start)
        then Some (w1, Rejected TimedOut)
        else attempt fuel' start timeoutMs intervalMs
               (mkWorld (sleep intervalMs (environment w1)) (sent w1)) in
      match o with
      | Answered statusCode _ =>
          if decide (statusCode ≠ 404) then Some (w1, Resolved true)
          else again
      | Failed _ => again
      end
  end.

Definition waitForGraphQLEndpoint (fuel : nat) (timeoutMs intervalMs : Z)
    (w : World) : option (World * Settled bool) :=
  attempt fuel (dateNow (environment w)) timeoutMs intervalMs w.

Definition testRestRegister : C Value :=
  λ w,
  let email := "test" +:+ pretty (dateNow (environment w)) +:+ "@example.com" in
  let body := object [("email", Some (JsString email));
                      ("password", Some (JsString "password123"));
                      ("name", Some (JsString "Test User"))] in
  (r <~ restRequest "POST" "/auth/register" (Some body) (Some JsNull) ;;
   match r with
   | Resolved result =>
       if decide (status result = 201) then pure (Some (JsString email))
       else pure (Some JsNull)
   | Rejected _ => pure (Some JsNull)
   end) w.

Definition testRestLogin (email password : Value) : C Value :=
  let body := object [("email", email); ("password", password)] in
  r <~ restRequest "POST" "/auth/login" (Some body) (Some JsNull) ;;
  match r with
  | Resolved result =>
      if decide (status result = 200)
      then
        match data result with
        | JsNull => pure (Some JsNull)
        | d => if truthy (member "token" d) then pure (member "token" d)
               else pure (Some JsNull)
        end
      else pure (Some JsNull)
  | Rejected _ => pure (Some JsNull)
  end.

(** The shape shared by the GraphQL tests: send, then pick the answer out of
    the result with [pick], or return [null] when the request rejects. *)
Definition graphqlTest (query : string) (variables token : Value)
    (pick : Json → Value) : C Value :=
  r <~ graphqlRequest query variables token ;;
  match r with
  | Resolved result => pure (pick result)
  | Rejected _ => pure (Some JsNull)
  end.

Definition testMe (token : Value) : C Value :=
  graphqlTest meQuery (Some JsNull) token
    (λ result, optional (member "data" result) "me").

Definition testCreateAppointment (token : Value) : C Value :=
  λ w,
  let startTime := plusOneHour (dateNow (environment w)) in
  let endTime := plusOneHour startTime in
  let variables :=
    object [("input",
             Some (object
                     [("title", Some (JsString "Test Appointment"));
                      ("description",
                       Some (JsString "This is a test appointment"));
                      ("startTime", Some (JsString (toISOString startTime)));
                      ("endTime", Some (JsString (toISOString endTime)));
                      ("status", Some (JsString "pending"))]))] in
  graphqlTest createAppointmentMutation (Some variables) token
    (λ result,
       optional (optional (member "data" result) "createAppointment") "id") w.

Definition testGetAppointments (token : Value) : C Value :=
  graphqlTest appointmentsQuery (Some JsNull) token
    (λ result, optional (member "data" result) "appointments").

Definition testGetAppointment (token appointmentId : Value) : C Value :=
  graphqlTest appointmentQuery (Some (object [("id", appointmentId)])) token
    (λ result, optional (member "data" result) "appointment").

Definition testUpdateAppointment (token appointmentId : Value) : C Value :=
  graphqlTest updateAppointmentMutation
    (Some (object
             [("id", appointmentId);
              ("input",
               Some (object
                       [("title", Some (JsString "Updated Appointment Title"));
                        ("status", Some (JsString "confirmed"))]))]))
    token
    (λ result, optional (member "data" result) "updateAppointment").

Definition testDeleteAppointment (token appointmentId : Value) : C Value :=
  graphqlTest deleteAppointmentMutation
    (Some (object [("id", appointmentId)])) token
    (λ result, optional (member "data" result) "deleteAppointment").

Definition runGraphQLTests (token : Value) : C unit :=
  _ <~ testMe token ;;
  appointmentId <~ testCreateAppointment token ;;
  if truthy appointmentId
  then
    _ <~ testGetAppointments token ;;
    _ <~ testGetAppointment token appointmentId ;;
    _ <~ testUpdateAppointment token appointmentId ;;
    pure tt
  else pure tt.

(** What [runTests] does once the wait is over. *)
Definition afterWait : C unit :=
  testEmail <~ testRestRegister ;;
  if truthy testEmail
  then
    token <~ testRestLogin testEmail (Some (JsString "password123")) ;;
    if truthy token then runGraphQLTests token else pure tt
  else
    token <~ testRestLogin (Some (JsString "test@example.com"))
               (Some (JsString "password123")) ;;
    if truthy token then runGraphQLTests token else pure tt.

(** [runTests]: wait for the endpoint with the default timeout and
    interval, go on whether the wait resolved or rejected. *)
Definition runTests (fuel : nat) (w : World) : option World :=
  match waitForGraphQLEndpoint fuel 8000 250 w with
  | Some (w1, _) => Some (afterWait w1).1
  | None => None
  end.
End Script.

Arguments mkWorld {E} _ _.
Arguments environment {E} _.
Arguments sent {E} _.
End Client.

(** ** Vocabulary of the properties *)

(** The value an operation returns when it does not throw satisfies [P]. *)
Definition returns {A} (m : M A) (P : A → Prop) : Prop :=
  ∀ s, match (m s).2 with
       | Ok a => P a
       | Throw _ => True
       end.

(** End time strictly after start time. *)
Definition validRange (a : Appointment.t) : Prop :=
  Appointment.startTime a < Appointment.endTime a.

Definition allValidRanges (s : Store) : Prop :=
  map_Forall (λ _ a, validRange a) (appointments s).

(** An appointment the caller may list: any for an admin, the caller's own
    otherwise. *)
Definition visible (u : Document User.t) (d : Document Appointment.t) : Prop :=
  isAdmin u = true ∨ Appointment.userId (fields d) = _id u.

(** The value a date path holds after an update that supplied [x]. *)
Definition dateAfter (x : Arg JSDate) (old new : Z) : Prop :=
  match x with
  | Undefined => new = old
  | Null => new = 0
  | Val (Date t) => new = t
  | Val InvalidDate => False
  end.

(** An update input that casts and passes the update validators: no date
    is invalid, a supplied title is a string that is not empty once trimmed,
    and a supplied status is null or one of the enum. *)
Definition acceptable (input : AppointmentUpdateInput) : Prop :=
  up_startTime input ≠ Val InvalidDate
  ∧ up_endTime input ≠ Val InvalidDate
  ∧ match up_title input with
    | Undefined => True
    | Null => False
    | Val t => trim t ≠ ""
    end
  ∧ match up_status input with
    | Val v => v ∈ Appointment.statusEnum
    | _ => True
    end.

Definition userDTOKeys : list string :=
  ["id"; "email"; "name"; "role"; "createdAt"].

(** A non-null object whose keys are exactly those of a User DTO. *)
Definition isUserDTO (o : option JSObject) : Prop :=
  ∃ d, o = Some d ∧ d.*1 = userDTOKeys.

(** The same user document with another password hash. *)
Definition withPasswordHash (h : string) (d : Document User.t)
    : Document User.t :=
  mkDocument (_id d)
    (User.mk (User.email (fields d)) h (User.name (fields d))
       (User.role (fields d)) (User.createdAt (fields d))).

(** The same user with the password hash [h] gives it. *)
Definition rehashed (h : User.t → string) (u : User.t) : User.t :=
  User.mk (User.email u) (h u) (User.name u) (User.role u) (User.createdAt u).

(** The same store with every stored password hash replaced. *)
Definition rehash (h : User.t → string) (s : Store) : Store :=
  mkStore (rehashed h <$> users s) (appointments s) (trace s).

(** The user [register] creates, given the hash function and the role of
    new users. *)
Definition newUser (bcrypt_hash : string → nat → string → string)
    (defaultRole : string) (now : Z) (salt e p : string) (n : option string)
    : User.t :=
  User.mk e (bcrypt_hash p 10%nat salt) n defaultRole now.

(** Two stores hold the same documents (their traces may differ). *)
Definition sameDocuments (s s' : Store) : Prop :=
  users s' = users s ∧ appointments s' = appointments s.

(** No two stored users share an email. *)
Definition uniqueEmails (s : Store) : Prop :=
  ∀ i j u v,
    users s !! i = Some u → users s !! j = Some v →
    User.email u = User.email v → i = j.

(** What the schema's validators guarantee of a stored appointment: a
    title that is not empty, and a status that is null or one of the enum. *)
Definition schemaValid (a : Appointment.t) : Prop :=
  Appointment.title a ≠ ""
  ∧ match Appointment.status a with
    | None => True
    | Some v => v ∈ Appointment.statusEnum
    end.

Definition allSchemaValid (s : Store) : Prop :=
  map_Forall (λ _ a, schemaValid a) (appointments s).

(** What one request does to the stored documents: nothing, or one of the
    four writes. [hash] and [role] are the hash function and the role of new
    users that [register] is run with. *)
Inductive Effect (hash : string → nat → string → string) (role : string)
    (c : Api.Call) (s s' : Store) : Prop :=
  | NoChange :
      sameDocuments s s' →
      Effect hash role c s s'
  | Registered e p n :
      Api.operation c = Api.OpRegister e p n →
      (∀ id u, users s !! id = Some u → User.email u ≠ e) →
      users s !! fresh (dom (users s)) = None →
      users s'
      = <[fresh (dom (users s)) :=
            newUser hash role (Api.env_now (Api.env c))
              (Api.env_salt (Api.env c)) e p n]> (users s) →
      appointments s' = appointments s →
      Effect hash role c s s'
  | Created u input doc :
      Api.caller c = Some u →
      Api.operation c = Api.OpCreateAppointment input →
      appointments s !! fresh (dom (appointments s)) = None →
      users s' = users s →
      appointments s'
      = <[fresh (dom (appointments s)) := doc]> (appointments s) →
      Appointment.userId doc = _id u →
      validRange doc →
      schemaValid doc →
      Effect hash role c s s'
  | Updated u id input old upd :
      Api.caller c = Some u →
      Api.operation c = Api.OpUpdateAppointment (Oid id) input →
      appointments s !! id = Some old →
      denied u (mkDocument id old) = false →
      AppointmentSchema.castUpdate
        (Mutation.updateData (Api.env_now (Api.env c)) input) = Ok upd →
      AppointmentSchema.updateValidators upd = Ok tt →
      users s' = users s →
      appointments s'
      = <[id := AppointmentSchema.applySet upd old]> (appointments s) →
      Effect hash role c s s'
  | Deleted u id old :
      Api.caller c = Some u →
      Api.operation c = Api.OpDeleteAppointment (Oid id) →
      appointments s !! id = Some old →
      denied u (mkDocument id old) = false →
      users s' = users s →
      appointments s' = delete id (appointments s) →
      Effect hash role c s s'.

(** A caller who is neither the owner of the appointment nor an admin, or
    no caller at all. *)
Definition outsider (a : Appointment.t) (ctx : Context) : Prop :=
  match ctx with
  | None => True
  | Some u => isAdmin u = false ∧ Appointment.userId a ≠ _id u
  end.

(** The query documents [runTests] sends: all but the one of
    [testDeleteAppointment]. *)
Definition scriptQueries : list string :=
  [Client.meQuery; Client.createAppointmentMutation; Client.appointmentsQuery;
   Client.appointmentQuery; Client.updateAppointmentMutation].

(** A request made by [graphqlRequest] with the given token, for one of the
    script's query documents. *)
Definition graphqlPost (stringify : Client.Json → string)
    (describe : Client.Json → string) (token : Client.Value)
    (r : Client.Request) : Prop :=
  ∃ query variables,
    r = Client.graphqlOptions stringify describe query variables token
    ∧ query ∈ scriptQueries.

(** The world after the request [r] has been sent from [w]. *)
Definition afterRequest {E : Type}
    (exchange : Client.Request → E → E * Client.Outcome)
    (r : Client.Request) (w : Client.World E) : Client.World E :=
  Client.mkWorld (exchange r (Client.environment w)).1
    (Client.sent w ++ [r]).

(** ** Sample data: three users and one appointment *)

Module Sample.
Definition alice : Document User.t :=
  mkDocument 1%nat
    (User.mk "alice@example.com" "$2a$10$alice" (Some "Alice") "user" 1767000000000).

Definition bob : Document User.t :=
  mkDocument 2%nat
    (User.mk "bob@example.com" "$2a$10$bob" (Some "Bob") "user" 1767000001000).

Definition root : Document User.t :=
  mkDocument 3%nat
    (User.mk "root@example.com" "$2a$10$root" None "admin" 1767000002000).

(** Alice's checkup on 2026-01-01, 09:00 to 10:00 UTC. *)
Definition checkup : Appointment.t :=
  Appointment.mk "Checkup" (Some "") 1767258000000 1767261600000 1%nat
    (Some "pending") 1767100000000 1767100000000.

Definition store : Store :=
  mkStore
    (<[1%nat := fields alice]> (<[2%nat := fields bob]> {[3%nat := fields root]}))
    {[7%nat := checkup]}
    [].

(** The time of the sample requests, and a clock that starts there and
    advances by a millisecond with every reading. *)
Definition now : Z := 1767200000000.

Definition clock : Clock := λ n, now + Z.of_nat n.

(** [{ endTime: "2026-01-01T08:00:00.000Z" }]: one hour before the start. *)
Definition endBeforeStart : AppointmentUpdateInput :=
  mkAppointmentUpdateInput Undefined Undefined Undefined
    (Val (Date 1767254400000)) Undefined.

(** [{ status: "done" }]: not a status of the enum. *)
Definition badStatus : AppointmentUpdateInput :=
  mkAppointmentUpdateInput Undefined Undefined Undefined Undefined (Val "done").

(** [{ title: "Review", status: "confirmed" }] *)
Definition confirm : AppointmentUpdateInput :=
  mkAppointmentUpdateInput (Val "Review") Undefined Undefined Undefined
    (Val "confirmed").

(** The checkup after Alice's [confirm] update at [now]. *)
Definition confirmed : Appointment.t :=
  Appointment.mk "Review" (Some "") 1767258000000 1767261600000 1%nat
    (Some "confirmed") 1767100000000 now.

Definition afterConfirm : Store :=
  mkStore (users store) {[7%nat := confirmed]}
    [Read Appointments; Write Appointments].

(** U+00A0, the no-break space. *)
Definition nbsp : string := bytes [194; 160].

(** [{ title: " Review\u00A0", startTime: "2026-01-01T11:00:00.000Z",
    endTime: "2026-01-01T12:00:00.000Z" }]: a new title and a new slot. *)
Definition reschedule : AppointmentUpdateInput :=
  mkAppointmentUpdateInput (Val (" Review" +:+ nbsp)) Undefined
    (Val (Date 1767265200000)) (Val (Date 1767268800000)) Undefined.

(** The checkup after Alice's [reschedule] update at [now]. *)
Definition rescheduled : Appointment.t :=
  Appointment.mk "Review" (Some "") 1767265200000 1767268800000 1%nat
    (Some "pending") 1767100000000 now.

Definition afterReschedule : Store :=
  mkStore (users store) {[7%nat := rescheduled]}
    [Read Appointments; Write Appointments].

(** An appointment that ends when it starts. *)
Definition emptySlot : AppointmentInput :=
  mkAppointmentInput "Sync" Undefined (Date 1767258000000) (Date 1767258000000)
    Undefined.

(** A booking for 2026-01-02, 09:00 to 10:00 UTC, with no status; the title
    is padded with a space and a no-break space. *)
Definition booking : AppointmentInput :=
  mkAppointmentInput (" Dentist" +:+ nbsp) (Val "cleaning")
    (Date 1767344400000) (Date 1767348000000) Undefined.

Definition booked : Appointment.t :=
  Appointment.mk "Dentist" (Some "cleaning") 1767344400000 1767348000000
    1%nat (Some "pending") now (now + 2).

Definition bookedId : ObjectId := fresh (dom (appointments store)).

Definition afterBooking : Store :=
  mkStore (users store) (<[bookedId := booked]> (appointments store))
    [Write Appointments].

Definition env : Api.Env := Api.mkEnv clock "N9qo8uLOickgx2ZMRZoMye".

(** Requests on Alice's appointment by Bob and by nobody. *)
Definition intrusions : list Api.Call :=
  [Api.mkCall (Some bob) env (Api.OpUpdateAppointment (Oid 7%nat) confirm);
   Api.mkCall (Some bob) env (Api.OpDeleteAppointment (Oid 7%nat));
   Api.mkCall None env (Api.OpDeleteAppointment (Oid 7%nat));
   Api.mkCall (Some bob) env (Api.OpDeleteAppointment NotOid);
   Api.mkCall (Some bob) env (Api.OpCreateAppointment booking);
   Api.mkCall (Some bob) env Api.OpAppointments].

(** Carol registers (twice), Alice books and confirms, the admin deletes the
    checkup. *)
Definition session : list Api.Call :=
  [Api.mkCall None env (Api.OpRegister "carol@example.com" "s3cret" (Some "Carol"));
   Api.mkCall None env (Api.OpRegister "carol@example.com" "other" None);
   Api.mkCall (Some alice) env (Api.OpCreateAppointment booking);
   Api.mkCall (Some alice) env (Api.OpUpdateAppointment (Oid 7%nat) confirm);
   Api.mkCall (Some bob) env (Api.OpUpdateAppointment (Oid 7%nat) badStatus);
   Api.mkCall (Some root) env (Api.OpDeleteAppointment (Oid 7%nat));
   Api.mkCall None env Api.OpUsers].
End Sample.

(** Stand-ins for bcrypt and jsonwebtoken that satisfy the two laws, to run
    [register] and [login] on the sample store. *)
Module Toy.
Definition hash (password : string) (rounds : nat) (salt : string) : string :=
  String.rev password.

Definition compare (password h : string) : bool :=
  bool_decide (String.rev password = h).

Fixpoint dots (n : nat) : string :=
  match n with
  | O => EmptyString
  | S k => String "."%char (dots k)
  end.

Definition sign (sub : ObjectId) (now : Z) : string :=
  String "j"%char (String "w"%char (String "t"%char (dots sub))).

Definition verify (token : string) : option ObjectId :=
  Some (String.length token - 3)%nat.
End Toy.

(** A stand-in for the script's environment: a clock in milliseconds and the
    answers the server will give, in order. Every exchange takes one
    millisecond; with no answer left the connection fails. *)
Module ToyClient.
Import Client.

Definition E : Type := Z * list Outcome.

Definition exchange (r : Request) (e : E) : E * Outcome :=
  match e.2 with
  | [] => ((e.1 + 1, []), Failed "ECONNREFUSED")
  | o :: answers => ((e.1 + 1, answers), o)
  end.

Definition dateNow (e : E) : Z := e.1.

Definition sleep (d : Z) (e : E) : E := (e.1 + d, e.2).

Definition stringify (j : Json) : string := "{}".

(** Reads [null], and any other text as an object with that token. *)
Definition parse (data : string) : option Json :=
  if decide (data = "null") then Some JsNull
  else Some (JsObject [("token", JsString data)]).

Definition describe (j : Json) : string := "[object Object]".

Definition plusOneHour (t : Z) : Z := t + 3600000.

Definition toISOString (t : Z) : string := pretty t.

(** A server that is not up: every connection fails. *)
Definition down : World E := mkWorld (1767200000000, []) [].

(** A server without the /graphql route that rejects the registration. *)
Definition conflict : World E :=
  mkWorld (1767200000000, [Answered 409 "taken"]) [].
End ToyClient.

(** ** The scenario of the specification, from an empty store *)

Module Scenario.
Definition empty : Store := mkStore ∅ ∅ [].

Definition registered :=
  Mutation.register Toy.hash Toy.sign "user" 1767200000000 "salt"
    "alice@example.com" "wonderland" (Some "Alice") empty.

(** The user document the token of [register] stands for. *)
Definition alice : Document User.t :=
  mkDocument 0%nat
    (User.mk "alice@example.com" "dnalrednow" (Some "Alice") "user"
       1767200000000).

Definition loggedIn :=
  Mutation.login Toy.compare Toy.sign 1767200001000 "alice@example.com"
    "wonderland" registered.1.

(** "Checkup", tomorrow 09:00 to 10:00. *)
Definition created :=
  Mutation.createAppointment (λ n, 1767200002000 + Z.of_nat n)
    (mkAppointmentInput "Checkup" Undefined (Date 1767344400000)
       (Date 1767348000000) Undefined)
    (Some alice) loggedIn.1.

Definition mine := Query.myAppointments (Some alice) created.1.

Definition updated :=
  Mutation.updateAppointment 1767200003000 (Oid 0%nat)
    (mkAppointmentUpdateInput Undefined Undefined Undefined Undefined
       (Val "confirmed"))
    (Some alice) mine.1.

Definition fetched := Query.appointment (Oid 0%nat) (Some alice) updated.1.
End Scenario.

(** * Properties *)

(** ** Trimming: the rounds of [trimStart] and [trimEnd] are enough *)

Lemma dropPrefix_length p s r :
  dropPrefix p s = Some r →
  String.length s = (String.length p + String.length r)%nat.
Proof.
  revert s. induction p as [|a p IH]; intros [|b s]; simpl; try done.
  - by intros [= <-].
  - by intros [= <-].
  - case_decide; [|done]. intros Hr. by rewrite (IH _ Hr).
Qed.

Lemma dropFirst_shorter ps s r :
  Forall (λ p, p ≠ "") ps →
  dropFirst ps s = Some r →
  (String.length r < String.length s)%nat.
Proof.
  induction 1 as [|p ps Hp _ IH]; simpl; [done|].
  destruct (dropPrefix p s) as [r'|] eqn:Hd; [|done].
  intros [= <-]. apply dropPrefix_length in Hd.
  destruct p; [done|]. simpl in Hd. lia.
Qed.

Lemma dropLeading_done ps n s :
  Forall (λ p, p ≠ "") ps →
  (String.length s ≤ n)%nat →
  dropFirst ps (dropLeading ps n s) = None.
Proof.
  intros Hps. revert s. induction n as [|n IH]; intros s Hn; simpl.
  - destruct (dropFirst ps s) as [r|] eqn:Hd; [|done].
    apply dropFirst_shorter in Hd; [lia | done].
  - destruct (dropFirst ps s) as [r|] eqn:Hd; [|done].
    apply IH. apply dropFirst_shorter in Hd; [lia | done].
Qed.

Lemma rev_app_length s1 s2 :
  String.length (String.rev_app s1 s2)
  = (String.length s1 + String.length s2)%nat.
Proof.
  revert s2. induction s1 as [|a s1 IH]; intros s2; simpl; [done|].
  rewrite IH. simpl. lia.
Qed.

Lemma whiteSpace_nonempty : Forall (λ p, p ≠ "") whiteSpace.
Proof. unfold whiteSpace. repeat (apply Forall_cons_2; [done|]). done. Qed.

(** What [trimStart] returns starts with no white space, and what
    [trimEnd] returns ends with none. *)
Lemma trimStart_done s : dropFirst whiteSpace (trimStart s) = None.
Proof. by apply dropLeading_done; [apply whiteSpace_nonempty|]. Qed.

Lemma trimEnd_done s :
  ∃ t, trimEnd s = String.rev t
       ∧ dropFirst (String.rev <$> whiteSpace) t = None.
Proof.
  eexists. split; [reflexivity|]. apply dropLeading_done.
  - unfold whiteSpace. simpl. repeat (apply Forall_cons_2; [done|]). done.
  - unfold String.rev. rewrite rev_app_length. simpl. lia.
Qed.

(** ** Running the model's queries *)

Section ModelQueries.
Import Appointment AppointmentSchema AppointmentModel.

Lemma findById_run id s :
  findById (Oid id) s
  = (logged (Read Appointments) s, Ok (mkDocument id <$> appointments s !! id)).
Proof. reflexivity. Qed.

Lemma findById_malformed s : findById NotOid s = (s, Throw CastError).
Proof. reflexivity. Qed.

Lemma create_rejected now obj s e :
  preValidate (construct now obj) = Throw e →
  create now obj s = (s, Throw e).
Proof. intros H. unfold create, bind, lift. by rewrite H. Qed.

Lemma create_invalid now obj s e :
  preValidate (construct now obj) = Ok tt →
  validate (construct now obj) = Throw e →
  create now obj s = (s, Throw e).
Proof. intros H1 H2. unfold create, bind, lift. by rewrite H1, H2. Qed.

Lemma create_inserted now obj s doc :
  preValidate (construct now obj) = Ok tt →
  validate (construct now obj) = Ok doc →
  let id := fresh (dom (appointments s)) in
  create now obj s
  = (mkStore (users s) (<[id := preSave (now 2%nat) doc]> (appointments s))
       (trace s ++ [Write Appointments]),
     Ok (mkDocument id (preSave (now 2%nat) doc))).
Proof. intros H1 H2. unfold create, bind, lift. by rewrite H1, H2. Qed.

Lemma findByIdAndUpdate_run id u u' old s :
  castUpdate u = Ok u' →
  updateValidators u' = Ok tt →
  appointments s !! id = Some old →
  findByIdAndUpdate (Oid id) u s
  = (mkStore (users s) (<[id := applySet u' old]> (appointments s))
       (trace s ++ [Write Appointments]),
     Ok (Some (mkDocument id (applySet u' old)))).
Proof.
  intros H1 H2 H3. unfold findByIdAndUpdate, bind, lift.
  rewrite H1, H2. simpl. unfold getAppointments. simpl. by rewrite H3.
Qed.

Lemma findByIdAndUpdate_cast_error id u e s :
  castUpdate u = Throw e → findByIdAndUpdate (Oid id) u s = (s, Throw e).
Proof. intros H. unfold findByIdAndUpdate, bind, lift. by rewrite H. Qed.

Lemma findByIdAndUpdate_invalid id u u' e s :
  castUpdate u = Ok u' →
  updateValidators u' = Throw e →
  findByIdAndUpdate (Oid id) u s = (s, Throw e).
Proof.
  intros H1 H2. unfold findByIdAndUpdate, bind, lift. by rewrite H1, H2.
Qed.

End ModelQueries.

(** ** The time-range check *)

Section TimeRange.
Import Appointment AppointmentSchema AppointmentModel.

Lemma preValidate_rejects now obj st en :
  i_startTime obj = Date st → i_endTime obj = Date en → en ≤ st →
  preValidate (construct now obj) = Throw InvalidTimeRange.
Proof.
  intros Hs He Hle. unfold preValidate, construct; simpl.
  rewrite Hs, He; simpl. by rewrite bool_decide_eq_true_2.
Qed.

Lemma validate_preSave_range now this doc :
  preValidate this = Ok tt → validate this = Ok doc →
  validRange (preSave now doc).
Proof.
  unfold preValidate, validate, validRange, js_le.
  destruct (d_startTime this) as [st|], (d_endTime this) as [en|]; try done.
  case_bool_decide; [done|]. intros _.
  destruct (required _ && enumValidator _); [|done].
  intros [= <-]; simpl. lia.
Qed.

(** X2. If every stored appointment ends after it starts, this still holds
    after [createAppointment], whether the call succeeds or throws. *)
Theorem createAppointment_keeps_ranges now input user s :
  allValidRanges s →
  allValidRanges (Mutation.createAppointment now input user s).1.
Proof.
  intros Hinv. destruct user as [u|]; [|done].
  unfold Mutation.createAppointment, bind.
  set (obj := mkInit _ _ _ _ _ _).
  destruct (preValidate (construct now obj)) as [[]|e] eqn:Hpre.
  2:{ by rewrite (create_rejected _ _ _ _ Hpre). }
  destruct (validate (construct now obj)) as [doc|e] eqn:Hval.
  2:{ by rewrite (create_invalid _ _ _ _ Hpre Hval). }
  rewrite (create_inserted _ _ _ _ Hpre Hval); simpl.
  apply map_Forall_insert_2; [|done].
  by eapply validate_preSave_range.
Qed.

(** X6. If every stored appointment ends after it starts, this still holds
    after [deleteAppointment]. *)
Theorem deleteAppointment_keeps_ranges (id : ID) user s :
  allValidRanges s →
  allValidRanges (Mutation.deleteAppointment id user s).1.
Proof.
  intros Hinv. destruct user as [u|]; [|done].
  destruct id as [id|]; [|done].
  unfold Mutation.deleteAppointment, bind. rewrite findById_run.
  destruct (appointments s !! id) as [a|]; simpl; [|done].
  destruct (denied _ _); simpl; [done|].
  by apply map_Forall_delete.
Qed.
End TimeRange.

(** X2 on the sample store, with the sample booking. *)
Lemma createAppointment_keeps_ranges_witness :
  allValidRanges
    (Mutation.createAppointment Sample.clock Sample.booking (Some Sample.alice)
       Sample.store).1.
Proof.
  apply createAppointment_keeps_ranges.
  apply map_Forall_singleton. unfold validRange; simpl. lia.
Defined.

(** X6 on the sample store. *)
Lemma deleteAppointment_keeps_ranges_witness :
  allValidRanges
    (Mutation.deleteAppointment (Oid 7%nat) (Some Sample.alice) Sample.store).1.
Proof.
  apply deleteAppointment_keeps_ranges.
  apply map_Forall_singleton. unfold validRange; simpl. lia.
Defined.

(** ** C5, C1: the time-range check on create, and its absence on update *)

(** C5. For an authenticated caller and any two times with
    endTime <= startTime (equal times included), [createAppointment] throws
    'End time must be after start time' (InvalidTimeRange); the store is left
    as it was: nothing is persisted and the database is not even reached. *)
Theorem createAppointment_rejects_invalid_range
    (now : Clock) (input : AppointmentInput) (u : Document User.t) (s : Store)
    (st en : Z) :
  in_startTime input = Date st →
  in_endTime input = Date en →
  en ≤ st →
  Mutation.createAppointment now input (Some u) s = (s, Throw InvalidTimeRange).
Proof.
  intros Hs He Hle. unfold Mutation.createAppointment, bind.
  by erewrite create_rejected; [|eapply preValidate_rejects].
Qed.

(** C5 on the sample store: Alice books a slot that ends when it starts. *)
Lemma createAppointment_rejects_invalid_range_witness :
  Mutation.createAppointment Sample.clock Sample.emptySlot (Some Sample.alice)
    Sample.store
  = (Sample.store, Throw InvalidTimeRange).
Proof.
  apply (createAppointment_rejects_invalid_range _ _ _ _
           1767258000000 1767258000000); [reflexivity | reflexivity | lia].
Defined.

(** C1 (the code departs from it). The owner moves the end of their 09:00 to
    10:00 appointment to 08:00 with [updateAppointment]: every stored
    appointment had its end after its start before the call, the call
    succeeds, and the stored appointment then ends before it starts. The
    [pre('validate')] hook that guards [createAppointment] does not run on
    [findByIdAndUpdate]. *)
Theorem updateAppointment_stores_invalid_range :
  let r := Mutation.updateAppointment Sample.now (Oid 7%nat) Sample.endBeforeStart
             (Some Sample.alice) Sample.store in
  allValidRanges Sample.store
  ∧ r.2 = Ok (Some [("id", JIdString 7%nat);
                    ("title", JString "Checkup");
                    ("description", JString "");
                    ("startTime", JISOString 1767258000000);
                    ("endTime", JISOString 1767254400000);
                    ("userId", JIdString 1%nat);
                    ("status", JString "pending");
                    ("createdAt", JISOString 1767100000000);
                    ("updatedAt", JISOString 1767200000000)])
  ∧ appointments r.1 !! 7%nat
    = Some (Appointment.mk "Checkup" (Some "") 1767258000000 1767254400000
              1%nat (Some "pending") 1767100000000 1767200000000)
  ∧ ¬ allValidRanges r.1.
Proof.
  assert (Hlk : appointments
                  (Mutation.updateAppointment Sample.now (Oid 7%nat)
                     Sample.endBeforeStart (Some Sample.alice) Sample.store).1
                !! 7%nat
                = Some (Appointment.mk "Checkup" (Some "") 1767258000000
                          1767254400000 1%nat (Some "pending") 1767100000000
                          1767200000000))
    by (vm_compute; reflexivity).
  cbv zeta. split_and!.
  - apply map_Forall_singleton. unfold validRange; simpl. lia.
  - vm_compute; reflexivity.
  - exact Hlk.
  - intros Hall. specialize (Hall _ _ Hlk). unfold validRange in Hall.
    simpl in Hall. lia.
Qed.

(** ** C2: authentication *)

(** X1. With no user in the context, the six resolvers that test [user] throw
    'Authentication required' and leave the store, trace included, as it
    was: the database is not reached. *)
Theorem guarded_resolvers_require_authentication
    (clock : Clock) (now : Z) (id : ID) input upd s :
  Query.appointments None s = (s, Throw AuthenticationRequired)
  ∧ Query.appointment id None s = (s, Throw AuthenticationRequired)
  ∧ Query.myAppointments None s = (s, Throw AuthenticationRequired)
  ∧ Mutation.createAppointment clock input None s
    = (s, Throw AuthenticationRequired)
  ∧ Mutation.updateAppointment now id upd None s
    = (s, Throw AuthenticationRequired)
  ∧ Mutation.deleteAppointment id None s = (s, Throw AuthenticationRequired).
Proof. by split_and!. Qed.

(** [users] takes no context: whoever calls it, it reads the collection and
    returns every user, newest first. *)
Lemma users_run s :
  Query.users s
  = (logged (Read Users) s,
     Ok ((λ u, toUserDTO (Some u))
           <$> merge_sort UserModel.byCreatedAtDesc (documents (users s)))).
Proof. reflexivity. Qed.

(** C2 (the code departs from it). The [users] resolver never looks at the
    request context, so a request with no user does not fail with
    'Authentication required': on the sample store it reads the Users
    collection and returns all three users. *)
Theorem users_answers_without_authentication :
  Query.users Sample.store
  = (logged (Read Users) Sample.store,
     Ok [Some [("id", JIdString 3%nat);
               ("email", JString "root@example.com");
               ("name", JNull);
               ("role", JString "admin");
               ("createdAt", JDate 1767000002000)];
         Some [("id", JIdString 2%nat);
               ("email", JString "bob@example.com");
               ("name", JString "Bob");
               ("role", JString "user");
               ("createdAt", JDate 1767000001000)];
         Some [("id", JIdString 1%nat);
               ("email", JString "alice@example.com");
               ("name", JString "Alice");
               ("role", JString "user");
               ("createdAt", JDate 1767000000000)]]).
Proof. vm_compute; reflexivity. Qed.

(** ** The documents of a collection *)

Lemma elem_of_documents {F} (c : gmap ObjectId F) (d : Document F) :
  d ∈ documents c ↔ c !! _id d = Some (fields d).
Proof.
  unfold documents. rewrite list_elem_of_fmap. split.
  - intros ([i x] & -> & Hin). by apply elem_of_map_to_list in Hin.
  - intros H. exists (_id d, fields d). split; [by destruct d|].
    by apply elem_of_map_to_list.
Qed.

Lemma NoDup_documents {F} (c : gmap ObjectId F) : NoDup (documents c).
Proof.
  unfold documents. apply NoDup_fmap_2; [|apply NoDup_map_to_list].
  intros [i x] [j y] [= -> ->]. done.
Qed.

(** ** C3: who sees which appointments *)

(** What [find] returns: the stored documents that match the filter, each
    once, by ascending start time. *)
Lemma find_result f (s : Store) :
  let docs := merge_sort AppointmentModel.byStartTime
                (filter (AppointmentModel.matches f)
                   (documents (appointments s))) in
  NoDup docs
  ∧ Sorted AppointmentModel.byStartTime docs
  ∧ ∀ d, d ∈ docs ↔
         appointments s !! _id d = Some (fields d)
         ∧ AppointmentModel.matches f d.
Proof.
  intros docs.
  assert (Hperm : docs ≡ₚ filter (AppointmentModel.matches f)
                            (documents (appointments s)))
    by apply merge_sort_Permutation.
  split_and!.
  - rewrite Hperm. apply NoDup_filter, NoDup_documents.
  - apply Sorted_merge_sort.
    intros a b. unfold AppointmentModel.byStartTime. lia.
  - intros d. rewrite Hperm, list_elem_of_filter, elem_of_documents. tauto.
Qed.

Lemma matches_visible u d :
  AppointmentModel.matches
    (if isAdmin u then AppointmentModel.All
     else AppointmentModel.ByUserId (_id u)) d
  ↔ visible u d.
Proof.
  unfold visible. destruct (isAdmin u); simpl; [tauto|].
  split; [tauto|]. by intros [|].
Qed.

(** C3. For an authenticated caller, [appointments] reads the collection
    once and returns the DTOs of a duplicate-free list [docs] of stored
    appointments, ordered by start time, that holds every stored appointment
    when the caller's role is admin and exactly those whose [userId] is the
    caller's [_id] otherwise; so a caller who is not an admin receives no
    appointment owned by someone else. *)
Theorem appointments_visibility (u : Document User.t) (s : Store) :
  ∃ docs : list (Document Appointment.t),
    Query.appointments (Some u) s
    = (logged (Read Appointments) s,
       Ok ((λ a, toAppointmentDTO (Some a)) <$> docs))
    ∧ NoDup docs
    ∧ Sorted AppointmentModel.byStartTime docs
    ∧ (∀ d, d ∈ docs ↔
            appointments s !! _id d = Some (fields d)
            ∧ (isAdmin u = true ∨ Appointment.userId (fields d) = _id u))
    ∧ (isAdmin u = false →
       ∀ d, d ∈ docs → Appointment.userId (fields d) = _id u).
Proof.
  set (f := if isAdmin u then AppointmentModel.All
            else AppointmentModel.ByUserId (_id u)).
  destruct (find_result f s) as (Hnd & Hsorted & Hin).
  assert (Hvis : ∀ d,
            d ∈ merge_sort AppointmentModel.byStartTime
                  (filter (AppointmentModel.matches f)
                     (documents (appointments s)))
            ↔ appointments s !! _id d = Some (fields d) ∧ visible u d).
  { intros d. rewrite Hin. unfold f. by rewrite matches_visible. }
  eexists. split_and!; [reflexivity | exact Hnd | exact Hsorted | exact Hvis |].
  intros Hna d [_ [Hadm|Hown]]%Hvis; [congruence | done].
Qed.

(** X3. [myAppointments] returns the caller's own appointments, whatever the
    caller's role. *)
Theorem myAppointments_own (u : Document User.t) (s : Store) :
  ∃ docs : list (Document Appointment.t),
    Query.myAppointments (Some u) s
    = (logged (Read Appointments) s,
       Ok ((λ a, toAppointmentDTO (Some a)) <$> docs))
    ∧ NoDup docs
    ∧ Sorted AppointmentModel.byStartTime docs
    ∧ ∀ d, d ∈ docs ↔
           appointments s !! _id d = Some (fields d)
           ∧ Appointment.userId (fields d) = _id u.
Proof.
  destruct (find_result (AppointmentModel.ByUserId (_id u)) s)
    as (Hnd & Hsorted & Hin).
  eexists. split_and!; [reflexivity | exact Hnd | exact Hsorted | exact Hin].
Qed.

(** ** C4: lookup and access control of a single appointment *)

Section Access.
Import Appointment AppointmentSchema AppointmentModel.

Lemma denied_true u id a :
  isAdmin u = false → userId a ≠ _id u → denied u (mkDocument id a) = true.
Proof.
  intros Hna Hne. unfold denied. rewrite Hna. simpl.
  by rewrite bool_decide_eq_true_2.
Qed.

Lemma denied_admin u d : isAdmin u = true → denied u d = false.
Proof. intros H. unfold denied. by rewrite H. Qed.

Lemma denied_owner u id a : userId a = _id u → denied u (mkDocument id a) = false.
Proof.
  intros H. unfold denied. simpl.
  rewrite (bool_decide_eq_false_2 (_ ≠ _)) by (intros Hne; by apply Hne).
  apply andb_false_r.
Qed.

(** The three resolvers start alike: one read, then NotFound, AccessDenied,
    or the action. *)
Lemma appointment_run id u s :
  Query.appointment (Oid id) (Some u) s
  = (logged (Read Appointments) s,
     match appointments s !! id with
     | None => Throw NotFound
     | Some a =>
         if denied u (mkDocument id a) then Throw AccessDenied
         else Ok (toAppointmentDTO (Some (mkDocument id a)))
     end).
Proof.
  unfold Query.appointment, bind. rewrite findById_run.
  destruct (appointments s !! id) as [a|]; simpl; [|done].
  by destruct (denied u _).
Qed.

Lemma updateAppointment_run now id input u s :
  Mutation.updateAppointment now (Oid id) input (Some u) s
  = match appointments s !! id with
    | None => (logged (Read Appointments) s, Throw NotFound)
    | Some a =>
        if denied u (mkDocument id a)
        then (logged (Read Appointments) s, Throw AccessDenied)
        else
          match findByIdAndUpdate (Oid id) (Mutation.updateData now input)
                  (logged (Read Appointments) s) with
          | (s', Ok updated) => (s', Ok (toAppointmentDTO updated))
          | (s', Throw e) => (s', Throw e)
          end
    end.
Proof.
  unfold Mutation.updateAppointment, bind. rewrite findById_run.
  destruct (appointments s !! id) as [a|]; simpl; [|done].
  destruct (denied u _); [done|].
  by destruct (findByIdAndUpdate _ _ _) as [s' [r|e]].
Qed.

Lemma deleteAppointment_run id u s :
  Mutation.deleteAppointment (Oid id) (Some u) s
  = match appointments s !! id with
    | None => (logged (Read Appointments) s, Throw NotFound)
    | Some a =>
        if denied u (mkDocument id a)
        then (logged (Read Appointments) s, Throw AccessDenied)
        else (mkStore (users s) (delete id (appointments s))
                (trace s ++ [Read Appointments; Write Appointments]),
              Ok true)
    end.
Proof.
  unfold Mutation.deleteAppointment, bind. rewrite findById_run.
  destruct (appointments s !! id) as [a|]; simpl; [|done].
  destruct (denied u _); [done|].
  unfold logged; simpl. by rewrite <- app_assoc.
Qed.

(** An id that is no ObjectId: the first query throws a CastError and the
    database is not reached. *)
Lemma appointment_malformed u s :
  Query.appointment NotOid (Some u) s = (s, Throw CastError).
Proof. reflexivity. Qed.

Lemma updateAppointment_malformed now input u s :
  Mutation.updateAppointment now NotOid input (Some u) s = (s, Throw CastError).
Proof. reflexivity. Qed.

Lemma deleteAppointment_malformed u s :
  Mutation.deleteAppointment NotOid (Some u) s = (s, Throw CastError).
Proof. reflexivity. Qed.

(** An allowed update of an existing appointment: the outcome is that of
    casting and validating the update document. *)
Lemma updateAppointment_allowed now id input u a s :
  appointments s !! id = Some a →
  denied u (mkDocument id a) = false →
  Mutation.updateAppointment now (Oid id) input (Some u) s
  = match castUpdate (Mutation.updateData now input) with
    | Throw e => (logged (Read Appointments) s, Throw e)
    | Ok upd =>
        match updateValidators upd with
        | Throw e => (logged (Read Appointments) s, Throw e)
        | Ok _ =>
            (mkStore (users s) (<[id := applySet upd a]> (appointments s))
               (trace s ++ [Read Appointments; Write Appointments]),
             Ok (toAppointmentDTO (Some (mkDocument id (applySet upd a)))))
        end
    end.
Proof.
  intros Ha Hd. rewrite updateAppointment_run, Ha, Hd.
  destruct (castUpdate _) as [upd|e] eqn:Hc.
  2:{ by rewrite (findByIdAndUpdate_cast_error _ _ _ _ Hc). }
  destruct (updateValidators upd) as [[]|e] eqn:Hv.
  2:{ by rewrite (findByIdAndUpdate_invalid _ _ _ _ _ Hc Hv). }
  rewrite (findByIdAndUpdate_run _ _ _ a _ Hc Hv) by exact Ha.
  simpl. by rewrite <- app_assoc.
Qed.
End Access.

(** The defect behind C1 in general: when only [endTime] is supplied and
    it is not after the stored start, [updateAppointment] by the owner still
    succeeds and stores it. *)
Lemma updateAppointment_accepts_early_end now id en u old s :
  appointments s !! id = Some old →
  Appointment.userId old = _id u →
  en ≤ Appointment.startTime old →
  ∃ s' r new,
    Mutation.updateAppointment now (Oid id)
      (mkAppointmentUpdateInput Undefined Undefined Undefined (Val (Date en))
         Undefined) (Some u) s
    = (s', Ok r)
    ∧ appointments s' !! id = Some new
    ∧ ¬ validRange new.
Proof.
  intros Hold Hown Hle.
  rewrite (updateAppointment_allowed _ _ _ _ _ _ Hold (denied_owner _ _ _ Hown)).
  simpl. eexists _, _, _. split_and!; [reflexivity | apply lookup_insert_eq |].
  unfold validRange; simpl. lia.
Qed.

Lemma castUpdate_throws u e :
  AppointmentSchema.castUpdate u = Throw e → e = CastError.
Proof.
  unfold AppointmentSchema.castUpdate, AppointmentSchema.castDateKey.
  destruct (Appointment.u_startTime u) as [[]|],
    (Appointment.u_endTime u) as [[]|]; congruence.
Qed.

Lemma updateValidators_throws u e :
  AppointmentSchema.updateValidators u = Throw e → e = ValidationError.
Proof.
  unfold AppointmentSchema.updateValidators.
  destruct (_ && _); congruence.
Qed.

(** An allowed update ends in success, a cast error or a validation
    error. *)
Lemma allowed_update_outcome now id input u a s :
  appointments s !! id = Some a →
  denied u (mkDocument id a) = false →
  (∃ r, (Mutation.updateAppointment now (Oid id) input (Some u) s).2 = Ok r)
  ∨ (Mutation.updateAppointment now (Oid id) input (Some u) s).2 = Throw CastError
  ∨ (Mutation.updateAppointment now (Oid id) input (Some u) s).2
    = Throw ValidationError.
Proof.
  intros Ha Hd. rewrite (updateAppointment_allowed _ _ _ _ _ _ Ha Hd).
  destruct (AppointmentSchema.castUpdate _) as [upd|e] eqn:Hc; simpl.
  2:{ apply castUpdate_throws in Hc as ->. auto. }
  destruct (AppointmentSchema.updateValidators upd) as [[]|e] eqn:Hv; simpl.
  - eauto.
  - apply updateValidators_throws in Hv as ->. auto.
Qed.

(** C4, as the code has it. For an authenticated caller, [appointment(id)],
    [updateAppointment(id, input)] and [deleteAppointment(id)]
    - throw a CastError, without reaching the database, when the id is not
      the string of an ObjectId;
    and for the string of an ObjectId they read the collection once and then
    - throw 'Appointment not found' when no appointment has that id;
    - throw 'Access denied' when the caller is neither the owner nor an
      admin, the stored documents being those of before ([logged] only
      extends the trace);
    - for an admin and any existing id, whoever owns it: [appointment]
      returns its DTO, [deleteAppointment] deletes it and returns true, and
      [updateAppointment] is never refused with 'Access denied' or
      'Appointment not found' and succeeds whenever the update document
      casts and passes the update validators. *)
Theorem single_appointment_access
    (now : Z) (input : AppointmentUpdateInput)
    (u : Document User.t) (s : Store) :
  (Query.appointment NotOid (Some u) s = (s, Throw CastError)
   ∧ Mutation.updateAppointment now NotOid input (Some u) s
     = (s, Throw CastError)
   ∧ Mutation.deleteAppointment NotOid (Some u) s = (s, Throw CastError))
  ∧ ∀ id : ObjectId,
    (appointments s !! id = None →
     Query.appointment (Oid id) (Some u) s
     = (logged (Read Appointments) s, Throw NotFound)
     ∧ Mutation.updateAppointment now (Oid id) input (Some u) s
       = (logged (Read Appointments) s, Throw NotFound)
     ∧ Mutation.deleteAppointment (Oid id) (Some u) s
       = (logged (Read Appointments) s, Throw NotFound))
    ∧ (∀ a, appointments s !! id = Some a →
            isAdmin u = false → Appointment.userId a ≠ _id u →
       Query.appointment (Oid id) (Some u) s
       = (logged (Read Appointments) s, Throw AccessDenied)
       ∧ Mutation.updateAppointment now (Oid id) input (Some u) s
         = (logged (Read Appointments) s, Throw AccessDenied)
       ∧ Mutation.deleteAppointment (Oid id) (Some u) s
         = (logged (Read Appointments) s, Throw AccessDenied))
    ∧ (∀ a, appointments s !! id = Some a → isAdmin u = true →
       Query.appointment (Oid id) (Some u) s
       = (logged (Read Appointments) s,
          Ok (toAppointmentDTO (Some (mkDocument id a))))
       ∧ Mutation.deleteAppointment (Oid id) (Some u) s
         = (mkStore (users s) (delete id (appointments s))
              (trace s ++ [Read Appointments; Write Appointments]),
            Ok true)
       ∧ (Mutation.updateAppointment now (Oid id) input (Some u) s).2
         ≠ Throw AccessDenied
       ∧ (Mutation.updateAppointment now (Oid id) input (Some u) s).2
         ≠ Throw NotFound
       ∧ (∀ upd,
            AppointmentSchema.castUpdate (Mutation.updateData now input)
            = Ok upd →
            AppointmentSchema.updateValidators upd = Ok tt →
            Mutation.updateAppointment now (Oid id) input (Some u) s
            = (mkStore (users s)
                 (<[id := AppointmentSchema.applySet upd a]> (appointments s))
                 (trace s ++ [Read Appointments; Write Appointments]),
               Ok (toAppointmentDTO
                     (Some (mkDocument id
                              (AppointmentSchema.applySet upd a))))))).
Proof.
  split; [by split_and! |]. intros id. split_and!.
  - intros Hnone.
    rewrite appointment_run, updateAppointment_run, deleteAppointment_run.
    by rewrite Hnone.
  - intros a Ha Hna Hne.
    rewrite appointment_run, updateAppointment_run, deleteAppointment_run.
    by rewrite Ha, (denied_true _ _ _ Hna Hne).
  - intros a Ha Hadm.
    pose proof (denied_admin u (mkDocument id a) Hadm) as Hd.
    rewrite appointment_run, deleteAppointment_run, Ha, Hd.
    split_and!; try done.
    + intros Hr. by destruct (allowed_update_outcome now _ input _ _ _ Ha Hd)
        as [[r Hok]|[He|He]]; rewrite Hr in *.
    + intros Hr. by destruct (allowed_update_outcome now _ input _ _ _ Ha Hd)
        as [[r Hok]|[He|He]]; rewrite Hr in *.
    + intros upd Hc Hv.
      rewrite (updateAppointment_allowed _ _ _ _ _ _ Ha Hd). by rewrite Hc, Hv.
Qed.

(** C4 as stated fails in two ways. The admin of the sample store updates
    Alice's existing appointment with a status outside the enum, and the
    call throws a validation error instead of succeeding. And for an id that
    is not the string of an ObjectId, which no appointment has, the three
    resolvers throw a CastError, not 'Appointment not found'. *)
Lemma admin_update_can_fail :
  isAdmin Sample.root = true
  ∧ appointments Sample.store !! 7%nat = Some Sample.checkup
  ∧ Mutation.updateAppointment Sample.now (Oid 7%nat) Sample.badStatus
      (Some Sample.root) Sample.store
    = (logged (Read Appointments) Sample.store, Throw ValidationError)
  ∧ Query.appointment NotOid (Some Sample.root) Sample.store
    = (Sample.store, Throw CastError)
  ∧ Mutation.updateAppointment Sample.now NotOid Sample.confirm
      (Some Sample.root) Sample.store
    = (Sample.store, Throw CastError)
  ∧ Mutation.deleteAppointment NotOid (Some Sample.root) Sample.store
    = (Sample.store, Throw CastError).
Proof. split_and!; vm_compute; reflexivity. Qed.

(** C4 on the sample store: an id that is no ObjectId, an unknown id, Bob on
    Alice's appointment, and the admin deleting it. *)
Lemma single_appointment_access_witness :
  Query.appointment NotOid (Some Sample.bob) Sample.store
  = (Sample.store, Throw CastError)
  ∧ Query.appointment (Oid 8%nat) (Some Sample.bob) Sample.store
    = (logged (Read Appointments) Sample.store, Throw NotFound)
  ∧ Mutation.updateAppointment Sample.now (Oid 7%nat) Sample.confirm
      (Some Sample.bob) Sample.store
    = (logged (Read Appointments) Sample.store, Throw AccessDenied)
  ∧ Mutation.deleteAppointment (Oid 7%nat) (Some Sample.root) Sample.store
    = (mkStore (users Sample.store) (delete 7%nat (appointments Sample.store))
         [Read Appointments; Write Appointments],
       Ok true).
Proof.
  split_and!.
  - apply (single_appointment_access Sample.now Sample.confirm Sample.bob
             Sample.store).
  - apply (single_appointment_access Sample.now Sample.confirm Sample.bob
             Sample.store).
    reflexivity.
  - apply (single_appointment_access Sample.now Sample.confirm Sample.bob
             Sample.store) with Sample.checkup.
    + reflexivity.
    + reflexivity.
    + simpl. lia.
  - apply (single_appointment_access Sample.now Sample.confirm Sample.root
             Sample.store) with Sample.checkup.
    + reflexivity.
    + reflexivity.
Defined.

(** ** C7, C10: what a successful update changes *)

Section Update.
Import Appointment AppointmentSchema AppointmentModel.

(** A successful [updateAppointment] had an id that casts, found the
    appointment, was allowed, and its update document cast and validated; it
    then set the document's paths. *)
Lemma updateAppointment_success now id input u s s' r :
  Mutation.updateAppointment now id input (Some u) s = (s', Ok r) →
  ∃ i old upd,
    id = Oid i
    ∧ appointments s !! i = Some old
    ∧ denied u (mkDocument i old) = false
    ∧ castUpdate (Mutation.updateData now input) = Ok upd
    ∧ updateValidators upd = Ok tt
    ∧ s' = mkStore (users s) (<[i := applySet upd old]> (appointments s))
             (trace s ++ [Read Appointments; Write Appointments])
    ∧ r = toAppointmentDTO (Some (mkDocument i (applySet upd old))).
Proof.
  destruct id as [id|]; [|by rewrite updateAppointment_malformed].
  intros H. pose proof H as H0. rewrite updateAppointment_run in H0.
  destruct (appointments s !! id) as [old|] eqn:Hold; [|done].
  destruct (denied u _) eqn:Hd; [done|]. clear H0.
  rewrite (updateAppointment_allowed now id input u old s Hold Hd) in H.
  destruct (castUpdate _) as [upd|e] eqn:Hc; [|done].
  destruct (updateValidators upd) as [[]|e] eqn:Hv; [|done].
  injection H as <- <-. by exists id, old, upd.
Qed.

(** The inputs that cast and validate are the acceptable ones. *)
Lemma acceptable_cast now input :
  acceptable input
  ↔ ∃ upd, castUpdate (Mutation.updateData now input) = Ok upd
           ∧ updateValidators upd = Ok tt.
Proof.
  unfold acceptable, castUpdate, updateValidators, Mutation.updateData,
    Mutation.dateKey, castDateKey, castTitle, required, enumValidator.
  simpl.
  destruct (up_startTime input) as [| |[st|]], (up_endTime input) as [| |[en|]],
    (up_title input) as [| |t], (up_status input) as [| |v]; simpl;
    (split;
     [intros (? & ? & ? & ?); try done;
      eexists; (split; [reflexivity|]); simpl;
      rewrite ?bool_decide_eq_true_2 by done; done
     |intros (upd & Hc & Hv); simplify_eq; simpl in Hv;
      repeat case_bool_decide; try done; by split_and!]).
Qed.

Lemma castUpdate_fields u upd :
  castUpdate u = Ok upd →
  s_title upd = castTitle (u_title u)
  ∧ s_description upd = u_description u
  ∧ castDateKey (u_startTime u) = Ok (s_startTime upd)
  ∧ castDateKey (u_endTime u) = Ok (s_endTime upd)
  ∧ s_status upd = u_status u
  ∧ s_updatedAt upd = u_updatedAt u.
Proof.
  unfold castUpdate.
  destruct (castDateKey (u_startTime u)) as [st|],
    (castDateKey (u_endTime u)) as [en|]; try done.
  by intros [= <-].
Qed.

Lemma castDateKey_dateAfter x k old :
  castDateKey (Mutation.dateKey x) = Ok k →
  dateAfter x old (default old k).
Proof. destruct x as [| |[t|]]; simpl; intros [= <-]; done. Qed.
End Update.

(** C7. [updateAppointment] is a partial update. Every successful call
    replaces the stored document [old] by [new], where each of title,
    description, startTime, endTime and status keeps its previous value when
    the input leaves the field out and is overwritten when the input
    supplies it (the title by the trimmed string; a date by the date the
    string denotes, [null] denoting the epoch; description and status by
    the string, or by [null]), and [updatedAt] is the current time. A
    supplied [null] title, a title that is empty once trimmed, a status
    outside the enum or an invalid date never gives a successful update.
    And such updates do succeed: for a stored appointment, a caller who is
    its owner or an admin, and any other input, the call returns. *)
Theorem updateAppointment_partial_update
    (now : Z) (id : ID) (input : AppointmentUpdateInput)
    (u : Document User.t) (s : Store) :
  (∀ s' r,
     Mutation.updateAppointment now id input (Some u) s = (s', Ok r) →
     ∃ i old new,
       id = Oid i
       ∧ appointments s !! i = Some old
       ∧ appointments s' = <[i := new]> (appointments s)
       ∧ r = toAppointmentDTO (Some (mkDocument i new))
       ∧ acceptable input
       ∧ match up_title input with
         | Undefined => Appointment.title new = Appointment.title old
         | Null => False
         | Val t => Appointment.title new = trim t
         end
       ∧ match up_description input with
         | Undefined =>
             Appointment.description new = Appointment.description old
         | Null => Appointment.description new = None
         | Val d => Appointment.description new = Some d
         end
       ∧ dateAfter (up_startTime input)
           (Appointment.startTime old) (Appointment.startTime new)
       ∧ dateAfter (up_endTime input)
           (Appointment.endTime old) (Appointment.endTime new)
       ∧ match up_status input with
         | Undefined => Appointment.status new = Appointment.status old
         | Null => Appointment.status new = None
         | Val v => Appointment.status new = Some v
         end
       ∧ Appointment.updatedAt new = now)
  ∧ (∀ i old,
       id = Oid i →
       appointments s !! i = Some old →
       denied u (mkDocument i old) = false →
       acceptable input →
       ∃ s' r,
         Mutation.updateAppointment now id input (Some u) s = (s', Ok r)).
Proof.
  split.
  - intros s' r
      (i & old & upd & -> & Hold & _ & Hc & Hv & -> & ->)%updateAppointment_success.
    exists i, old, (AppointmentSchema.applySet upd old).
    assert (Hacc : acceptable input)
      by (apply (acceptable_cast now); eauto).
    apply castUpdate_fields in Hc as (Ht & Hd & Hst & Hen & Hs & Hu).
    simpl in Ht, Hd, Hs, Hu.
    split_and!; try done; simpl.
    + rewrite Ht. unfold AppointmentSchema.updateValidators in Hv.
      rewrite Ht in Hv. by destruct (up_title input).
    + rewrite Hd. by destruct (up_description input).
    + exact (castDateKey_dateAfter _ _ _ Hst).
    + exact (castDateKey_dateAfter _ _ _ Hen).
    + rewrite Hs. by destruct (up_status input).
  - intros i old -> Hold Hd (upd & Hc & Hv)%(acceptable_cast now).
    rewrite (updateAppointment_allowed _ _ _ _ _ _ Hold Hd), Hc, Hv.
    by eexists _, _.
Qed.

(** C10. A successful [updateAppointment] changes no appointment's [userId]
    or [createdAt]: every appointment stored before the call is still
    stored under its id, with the owner and creation time it had. *)
Theorem updateAppointment_keeps_owner_and_createdAt
    (now : Z) (id : ID) (input : AppointmentUpdateInput)
    (u : Document User.t) (s s' : Store) (r : option JSObject) :
  Mutation.updateAppointment now id input (Some u) s = (s', Ok r) →
  ∀ j a, appointments s !! j = Some a →
    ∃ a', appointments s' !! j = Some a'
          ∧ Appointment.userId a' = Appointment.userId a
          ∧ Appointment.createdAt a' = Appointment.createdAt a.
Proof.
  intros (i & old & upd & -> & Hold & _ & _ & _ & -> & _)%updateAppointment_success
    j a Ha.
  simpl. destruct (decide (i = j)) as [<-|Hne].
  - rewrite lookup_insert_eq. eexists; split; [done|].
    rewrite Hold in Ha. by injection Ha as <-.
  - rewrite lookup_insert_ne by done. by exists a.
Qed.

(** Alice's [confirm] update on the sample store. *)
Lemma updateAppointment_confirm_sample :
  Mutation.updateAppointment Sample.now (Oid 7%nat) Sample.confirm
    (Some Sample.alice) Sample.store
  = (Sample.afterConfirm,
     Ok (toAppointmentDTO (Some (mkDocument 7%nat Sample.confirmed)))).
Proof. vm_compute; reflexivity. Defined.

(** Alice's [reschedule] update on the sample store. *)
Lemma updateAppointment_reschedule_sample :
  Mutation.updateAppointment Sample.now (Oid 7%nat) Sample.reschedule
    (Some Sample.alice) Sample.store
  = (Sample.afterReschedule,
     Ok (toAppointmentDTO (Some (mkDocument 7%nat Sample.rescheduled)))).
Proof. vm_compute; reflexivity. Defined.

Lemma acceptable_reschedule : acceptable Sample.reschedule.
Proof. by split_and!. Qed.

(** C7 on Alice's [reschedule] update: it succeeds; the title, trimmed of
    its space and no-break space, and the two dates are overwritten, the
    other fields keep their values. *)
Lemma updateAppointment_partial_update_witness :
  (∃ s' r,
     Mutation.updateAppointment Sample.now (Oid 7%nat) Sample.reschedule
       (Some Sample.alice) Sample.store
     = (s', Ok r))
  ∧ ∃ i old new,
      Oid 7%nat = Oid i
      ∧ appointments Sample.store !! i = Some old
      ∧ appointments Sample.afterReschedule
        = <[i := new]> (appointments Sample.store)
      ∧ toAppointmentDTO (Some (mkDocument 7%nat Sample.rescheduled))
        = toAppointmentDTO (Some (mkDocument i new))
      ∧ acceptable Sample.reschedule
      ∧ Appointment.title new = "Review"
      ∧ Appointment.description new = Appointment.description old
      ∧ Appointment.startTime new = 1767265200000
      ∧ Appointment.endTime new = 1767268800000
      ∧ Appointment.status new = Appointment.status old
      ∧ Appointment.updatedAt new = Sample.now.
Proof.
  split.
  - apply (proj2 (updateAppointment_partial_update Sample.now (Oid 7%nat)
                    Sample.reschedule Sample.alice Sample.store)
             7%nat Sample.checkup);
      [reflexivity | reflexivity | reflexivity | exact acceptable_reschedule].
  - exact (proj1 (updateAppointment_partial_update Sample.now (Oid 7%nat)
                    Sample.reschedule Sample.alice Sample.store)
             _ _ updateAppointment_reschedule_sample).
Defined.

(** A title of white space only, here one no-break space, is empty once
    trimmed and fails [required], on update and on create. *)
Lemma blank_title_rejected :
  Mutation.updateAppointment Sample.now (Oid 7%nat)
    (mkAppointmentUpdateInput (Val Sample.nbsp) Undefined Undefined Undefined
       Undefined)
    (Some Sample.alice) Sample.store
  = (logged (Read Appointments) Sample.store, Throw ValidationError)
  ∧ Mutation.createAppointment Sample.clock
      (mkAppointmentInput Sample.nbsp Undefined (Date 1767344400000)
         (Date 1767348000000) Undefined)
      (Some Sample.alice) Sample.store
    = (Sample.store, Throw ValidationError).
Proof. split; vm_compute; reflexivity. Qed.

(** C10 on Alice's [confirm] update. *)
Lemma updateAppointment_keeps_owner_and_createdAt_witness :
  ∃ a', appointments Sample.afterConfirm !! 7%nat = Some a'
        ∧ Appointment.userId a' = 1%nat
        ∧ Appointment.createdAt a' = 1767100000000.
Proof.
  apply (updateAppointment_keeps_owner_and_createdAt Sample.now (Oid 7%nat)
           Sample.confirm Sample.alice Sample.store Sample.afterConfirm _
           updateAppointment_confirm_sample 7%nat Sample.checkup).
  reflexivity.
Defined.

(** ** C6, C8: register and login *)

Section UserQueries.
Import User UserModel.

Lemma findOne_run e s :
  findOne e s
  = (logged (Read Users) s, Ok (head (filter (hasEmail e) (documents (users s))))).
Proof. reflexivity. Qed.

Lemma documents_insert {F} (c : gmap ObjectId F) id x :
  c !! id = None →
  documents (<[id := x]> c) ≡ₚ mkDocument id x :: documents c.
Proof.
  intros H. unfold documents. by rewrite (map_to_list_insert _ _ _ H).
Qed.

(** The query for an email that only the new document has. *)
Lemma filter_hasEmail_insert e id u (c : gmap ObjectId User.t) :
  c !! id = None →
  filter (hasEmail e) (documents c) = [] →
  email u = e →
  filter (hasEmail e) (documents (<[id := u]> c)) = [mkDocument id u].
Proof.
  intros Hid Hnone He. apply Permutation_singleton_r.
  rewrite (documents_insert _ _ _ Hid).
  rewrite filter_cons_True by done. by rewrite Hnone.
Qed.

Lemma filter_hasEmail_nil e (c : gmap ObjectId User.t) :
  filter (hasEmail e) (documents c) = []
  ↔ ∀ id u, c !! id = Some u → email u ≠ e.
Proof.
  split.
  - intros H id u Hu He.
    apply (filter_nil_not_elem_of _ _ (mkDocument id u) H He).
    by apply elem_of_documents.
  - intros H. apply elem_of_nil_inv.
    intros d [He Hd%elem_of_documents]%list_elem_of_filter.
    by apply (H _ _ Hd).
Qed.

Lemma fresh_lookup {F} (c : gmap ObjectId F) : c !! fresh (dom c) = None.
Proof. apply not_elem_of_dom, is_fresh. Qed.
End UserQueries.

Section RegisterLogin.
Import User UserModel.

Variable bcrypt_hash : string → nat → string → string.
Variable bcrypt_compare : string → string → bool.
Variable jwt_sign : ObjectId → Z → string.
Variable defaultRole : string.

(** [jwt.verify(token, jwtSecret).sub]: the subject of a token. *)
Variable jwt_verify : string → option ObjectId.

(** [bcrypt.compare] accepts a password against its own hash. *)
Hypothesis compare_hash :
  ∀ password rounds salt,
    bcrypt_compare password (bcrypt_hash password rounds salt) = true.

(** Verifying a signed token gives back its subject. *)
Hypothesis verify_sign :
  ∀ sub now, jwt_verify (jwt_sign sub now) = Some sub.

Local Abbreviation register := (Mutation.register bcrypt_hash jwt_sign defaultRole).
Local Abbreviation login := (Mutation.login bcrypt_compare jwt_sign).

Local Abbreviation newUser := (newUser bcrypt_hash defaultRole).

Lemma register_run now salt e p n s :
  register now salt e p n s
  = if decide (filter (hasEmail e) (documents (users s)) = [])
    then
      let id := fresh (dom (users s)) in
      let u := newUser now salt e p n in
      (mkStore (<[id := u]> (users s)) (appointments s)
         (trace s ++ [Read Users; Write Users]),
       Ok (mkAuthPayload (jwt_sign id now) (toUserDTO (Some (mkDocument id u)))))
    else (logged (Read Users) s, Throw DuplicateEmail).
Proof.
  unfold Mutation.register, bind. rewrite findOne_run.
  case_decide as Hnil.
  - rewrite Hnil. simpl. unfold create, bind. simpl.
    rewrite decide_True by done. simpl. by rewrite <- app_assoc.
  - destruct (filter _ _) as [|d l]; [done|]. reflexivity.
Qed.

Lemma login_run now e p s :
  login now e p s
  = (logged (Read Users) s,
     match head (filter (hasEmail e) (documents (users s))) with
     | None => Throw InvalidCredentials
     | Some u =>
         if bcrypt_compare p (passwordHash (fields u))
         then Ok (mkAuthPayload (jwt_sign (_id u) now) (toUserDTO (Some u)))
         else Throw InvalidCredentials
     end).
Proof.
  unfold Mutation.login, bind. rewrite findOne_run.
  destruct (head _) as [u|]; simpl; [|done].
  by destruct (bcrypt_compare _ _).
Qed.

(** After [register], some user has the email. *)
Lemma register_email_taken now salt e p n s :
  filter (hasEmail e) (documents (users (register now salt e p n s).1)) ≠ [].
Proof.
  rewrite register_run. case_decide as Hnil; simpl; [|done].
  rewrite (filter_hasEmail_insert e _ (newUser now salt e p n));
    [done | apply fresh_lookup | done | done].
Qed.

(** C6. When no stored user has the email, [register] succeeds for any
    password: it stores one new user [u] under a new id and returns a token
    and that user's DTO. A login with the same email and password on the
    resulting store then succeeds, returns the same user's DTO, and the
    subject of the token it signs is the id of the user [register]
    created. *)
Theorem register_then_login
    (now later : Z) (salt e p : string) (n : option string) (s : Store) :
  (∀ id u, users s !! id = Some u → email u ≠ e) →
  ∃ s1 id u tok,
    register now salt e p n s
    = (s1, Ok (mkAuthPayload tok (toUserDTO (Some (mkDocument id u)))))
    ∧ users s !! id = None
    ∧ users s1 = <[id := u]> (users s)
    ∧ email u = e
    ∧ ∃ s2 tok',
        login later e p s1
        = (s2, Ok (mkAuthPayload tok' (toUserDTO (Some (mkDocument id u)))))
        ∧ jwt_verify tok' = Some id.
Proof.
  intros Hfresh%filter_hasEmail_nil.
  set (id := fresh (dom (users s))).
  set (u := newUser now salt e p n).
  eexists _, id, u, _. split_and!.
  - rewrite register_run. rewrite decide_True by done. reflexivity.
  - apply fresh_lookup.
  - reflexivity.
  - reflexivity.
  - eexists _, _. split.
    + rewrite login_run. simpl.
      rewrite (filter_hasEmail_insert e id u);
        [| apply fresh_lookup | done | done].
      simpl. unfold u at 1, newUser. simpl. rewrite compare_hash. reflexivity.
    + simpl. apply verify_sign.
Qed.

(** C8. Whatever the first call did, a second [register] with the same
    email (and any password and name) finds the email in use: it throws
    'Email already in use' after one read of the Users collection, and the
    stored users and appointments are exactly those the first call left: no
    user is created and none is changed. *)
Theorem register_twice
    (now1 now2 : Z) (salt1 salt2 e p1 p2 : string) (n1 n2 : option string)
    (s : Store) :
  let s1 := (register now1 salt1 e p1 n1 s).1 in
  let second := register now2 salt2 e p2 n2 s1 in
  second.2 = Throw DuplicateEmail
  ∧ users second.1 = users s1
  ∧ appointments second.1 = appointments s1
  ∧ trace second.1 = (trace s1 ++ [Read Users])%list.
Proof.
  cbv zeta. rewrite (register_run now2).
  rewrite decide_False by apply register_email_taken. by split_and!.
Qed.
End RegisterLogin.


Lemma Toy_compare_hash password rounds salt :
  Toy.compare password (Toy.hash password rounds salt) = true.
Proof. unfold Toy.compare, Toy.hash. by apply bool_decide_eq_true_2. Qed.

Lemma Toy_verify_sign sub now : Toy.verify (Toy.sign sub now) = Some sub.
Proof.
  unfold Toy.verify, Toy.sign. simpl. f_equal. rewrite Nat.sub_0_r.
  induction sub; simpl; congruence.
Qed.

(** C6 on the sample store, with the stand-ins: Carol registers and logs
    in. *)
Lemma register_then_login_witness :
  ∃ s1 id u tok,
    Mutation.register Toy.hash Toy.sign "user" Sample.now "salt"
      "carol@example.com" "s3cret" (Some "Carol") Sample.store
    = (s1, Ok (mkAuthPayload tok (toUserDTO (Some (mkDocument id u)))))
    ∧ users Sample.store !! id = None
    ∧ users s1 = <[id := u]> (users Sample.store)
    ∧ User.email u = "carol@example.com"
    ∧ ∃ s2 tok',
        Mutation.login Toy.compare Toy.sign (Sample.now + 1000)
          "carol@example.com" "s3cret" s1
        = (s2, Ok (mkAuthPayload tok' (toUserDTO (Some (mkDocument id u)))))
        ∧ Toy.verify tok' = Some id.
Proof.
  apply (register_then_login Toy.hash Toy.compare Toy.sign "user" Toy.verify
           Toy_compare_hash Toy_verify_sign).
  apply filter_hasEmail_nil. vm_compute. reflexivity.
Defined.

(** ** C9: user DTOs *)


Lemma toUserDTO_isUserDTO d : isUserDTO (toUserDTO (Some d)).
Proof. by eexists. Qed.

(** Sorting commutes with a map that respects the order. *)
Section SortMap.
Context {A B : Type} (R : relation A) (R' : relation B) (f : A → B).
Context `{∀ x y, Decision (R x y)} `{∀ x y, Decision (R' x y)}.
Hypothesis respects : ∀ x y, R' (f x) (f y) ↔ R x y.

Local Abbreviation onStack :=
  (fmap (M:=list) (fmap (M:=option) (fmap (M:=list) f))).

Lemma list_merge_fmap (l1 l2 : list A) :
  list_merge R' (f <$> l1) (f <$> l2) = f <$> list_merge R l1 l2.
Proof.
  revert l2. induction l1 as [|x1 l1 IH1]; intros l2.
  { by rewrite fmap_nil, !list_merge_nil_l. }
  induction l2 as [|x2 l2 IH2].
  { by rewrite fmap_nil, !list_merge_nil_r. }
  rewrite !fmap_cons, !list_merge_cons.
  rewrite (decide_ext _ _ _ _ (respects x1 x2)).
  case_decide.
  - rewrite fmap_cons. f_equal. by rewrite <- IH1.
  - rewrite fmap_cons. f_equal. by rewrite <- IH2.
Qed.

Lemma merge_list_to_stack_fmap (st : list (option (list A))) (l : list A) :
  merge_list_to_stack R' (onStack st) (f <$> l)
  = onStack (merge_list_to_stack R st l).
Proof.
  revert l. induction st as [|[l'|] st IH]; intros l; [done| |done].
  rewrite fmap_cons. cbn [merge_list_to_stack fmap option_fmap option_map].
  rewrite fmap_cons. f_equal. by rewrite list_merge_fmap, IH.
Qed.

Lemma merge_stack_fmap (st : list (option (list A))) :
  merge_stack R' (onStack st) = f <$> merge_stack R st.
Proof.
  induction st as [|[l|] st IH]; [done| |done].
  rewrite fmap_cons. cbn [merge_stack fmap option_fmap option_map].
  by rewrite IH, list_merge_fmap.
Qed.

Lemma merge_sort_aux_fmap (st : list (option (list A))) (l : list A) :
  merge_sort_aux R' (onStack st) (f <$> l)
  = f <$> merge_sort_aux R st l.
Proof.
  revert st. induction l as [|x l IH]; intros st.
  { apply merge_stack_fmap. }
  rewrite fmap_cons. cbn [merge_sort_aux].
  rewrite <- IH. f_equal.
  by rewrite <- (merge_list_to_stack_fmap st [x]).
Qed.

Lemma merge_sort_fmap (l : list A) :
  merge_sort R' (f <$> l) = f <$> merge_sort R l.
Proof. apply (merge_sort_aux_fmap []). Qed.
End SortMap.

(** What replacing the password hashes does to the queries on users:
    nothing but to the hashes of the documents found. *)
Section Rehash.
Import User UserModel.
Variable h : User.t → string.

Local Abbreviation rehashedDoc :=
  (λ d : Document User.t, mkDocument (_id d) (rehashed h (fields d))).

Lemma documents_rehash (c : gmap ObjectId User.t) :
  documents (rehashed h <$> c) = rehashedDoc <$> documents c.
Proof.
  unfold documents. rewrite map_to_list_fmap, <- !list_fmap_compose.
  apply list_fmap_ext. by intros ? [??].
Qed.

Lemma toUserDTO_rehash d : toUserDTO (Some (rehashedDoc d)) = toUserDTO (Some d).
Proof. reflexivity. Qed.

Lemma find_rehash (c : gmap ObjectId User.t) :
  merge_sort byCreatedAtDesc (documents (rehashed h <$> c))
  = rehashedDoc <$> merge_sort byCreatedAtDesc (documents c).
Proof.
  rewrite documents_rehash. by apply merge_sort_fmap.
Qed.

Lemma findOne_rehash e (c : gmap ObjectId User.t) :
  filter (hasEmail e) (documents (rehashed h <$> c))
  = rehashedDoc <$> filter (hasEmail e) (documents c).
Proof.
  rewrite documents_rehash.
  induction (documents c) as [|d l IH]; [done|].
  rewrite fmap_cons, !filter_cons, IH.
  rewrite (decide_ext (hasEmail e (rehashedDoc d)) (hasEmail e d)) by done.
  by case_decide.
Qed.
End Rehash.


(** ** Further properties of the resolvers *)

(** X4. [login] throws 'Invalid credentials' when no stored user with the email
    has a hash that [bcrypt.compare] accepts for the password: the email is
    unknown, or the password does not match. Nothing is written. *)
Theorem login_invalid_credentials
    (bcrypt_compare : string → string → bool)
    (jwt_sign : ObjectId → Z → string)
    (now : Z) (e p : string) (s : Store) :
  (∀ id u, users s !! id = Some u → User.email u = e →
           bcrypt_compare p (User.passwordHash u) = false) →
  Mutation.login bcrypt_compare jwt_sign now e p s
  = (logged (Read Users) s, Throw InvalidCredentials).
Proof.
  intros Hbad. rewrite login_run. f_equal.
  destruct (head _) as [d|] eqn:Hd; [|done].
  apply head_Some_elem_of, list_elem_of_filter in Hd as [He Hd].
  apply elem_of_documents in Hd. by rewrite (Hbad _ _ Hd He).
Qed.

(** X4 on the sample store: a wrong password for Bob. *)
Lemma login_invalid_credentials_witness :
  Mutation.login Toy.compare Toy.sign Sample.now "bob@example.com" "guess"
    Sample.store
  = (logged (Read Users) Sample.store, Throw InvalidCredentials).
Proof.
  apply login_invalid_credentials. intros id u Hu He.
  assert (Hd : mkDocument id u
               ∈ filter (UserModel.hasEmail "bob@example.com")
                   (documents (users Sample.store))).
  { apply list_elem_of_filter. split; [done | by apply elem_of_documents]. }
  vm_compute in Hd. apply list_elem_of_singleton in Hd. by injection Hd as -> ->.
Defined.

(** X5. A successful [createAppointment] inserts one document under a new id:
    its owner is the caller, its status the supplied one or 'pending', its
    title the trimmed input title, its dates those of the input with the end
    after the start, [createdAt] the first reading of the clock, taken when
    the document is built, and [updatedAt] the third, taken by the
    [pre('save')] hook; the DTO of that document is returned. *)
Theorem createAppointment_success
    (now : Clock) (input : AppointmentInput) (u : Document User.t)
    (s s' : Store) (r : option JSObject) :
  Mutation.createAppointment now input (Some u) s = (s', Ok r) →
  ∃ id doc,
    appointments s !! id = None
    ∧ appointments s' = <[id := doc]> (appointments s)
    ∧ users s' = users s
    ∧ r = toAppointmentDTO (Some (mkDocument id doc))
    ∧ Appointment.userId doc = _id u
    ∧ Appointment.status doc = Some (js_or (in_status input) "pending")
    ∧ Appointment.title doc = trim (in_title input)
    ∧ in_startTime input = Date (Appointment.startTime doc)
    ∧ in_endTime input = Date (Appointment.endTime doc)
    ∧ Appointment.startTime doc < Appointment.endTime doc
    ∧ Appointment.createdAt doc = now 0%nat
    ∧ Appointment.updatedAt doc = now 2%nat.
Proof.
  unfold Mutation.createAppointment, bind.
  set (obj := Appointment.mkInit _ _ _ _ _ _).
  destruct (AppointmentSchema.preValidate (AppointmentSchema.construct now obj))
    as [[]|e] eqn:Hpre.
  2:{ by rewrite (create_rejected _ _ _ _ Hpre). }
  destruct (AppointmentSchema.validate (AppointmentSchema.construct now obj))
    as [doc|e] eqn:Hval.
  2:{ by rewrite (create_invalid _ _ _ _ Hpre Hval). }
  rewrite (create_inserted _ _ _ _ Hpre Hval). simpl. intros [= <- <-].
  exists (fresh (dom (appointments s))),
    (AppointmentSchema.preSave (now 2%nat) doc).
  pose proof (validate_preSave_range (now 2%nat) _ _ Hpre Hval) as Hrange.
  unfold AppointmentSchema.validate in Hval. simpl in Hval.
  destruct (in_startTime input) as [st|], (in_endTime input) as [en|];
    simpl in Hval; try done.
  destruct (_ && _); [|done]. injection Hval as <-.
  split_and!; try done. apply fresh_lookup.
Qed.

(** Alice's booking on the sample store. *)
Lemma createAppointment_booking_sample :
  Mutation.createAppointment Sample.clock Sample.booking (Some Sample.alice)
    Sample.store
  = (Sample.afterBooking,
     Ok (toAppointmentDTO (Some (mkDocument Sample.bookedId Sample.booked)))).
Proof. vm_compute; reflexivity. Defined.

(** X5 on Alice's booking. *)
Lemma createAppointment_success_witness :
  ∃ id doc,
    appointments Sample.store !! id = None
    ∧ appointments Sample.afterBooking = <[id := doc]> (appointments Sample.store)
    ∧ users Sample.afterBooking = users Sample.store
    ∧ toAppointmentDTO (Some (mkDocument Sample.bookedId Sample.booked))
      = toAppointmentDTO (Some (mkDocument id doc))
    ∧ Appointment.userId doc = 1%nat
    ∧ Appointment.status doc = Some "pending"
    ∧ Appointment.title doc = "Dentist"
    ∧ Date 1767344400000 = Date (Appointment.startTime doc)
    ∧ Date 1767348000000 = Date (Appointment.endTime doc)
    ∧ Appointment.startTime doc < Appointment.endTime doc
    ∧ Appointment.createdAt doc = Sample.now
    ∧ Appointment.updatedAt doc = Sample.now + 2.
Proof.
  exact (createAppointment_success Sample.clock Sample.booking Sample.alice
           Sample.store Sample.afterBooking _ createAppointment_booking_sample).
Defined.

(** The scenario of the specification: register, log in, create "Checkup"
    for tomorrow 09:00 to 10:00, list it with [myAppointments] (one item,
    status pending), set its status to confirmed, and read it back with
    [appointment(id)]: confirmed, with a refreshed [updatedAt]. *)
Theorem end_to_end_scenario :
  Scenario.registered.2
  = Ok (mkAuthPayload "jwt"
          (Some [("id", JIdString 0%nat);
                 ("email", JString "alice@example.com");
                 ("name", JString "Alice");
                 ("role", JString "user");
                 ("createdAt", JDate 1767200000000)]))
  ∧ Scenario.loggedIn.2 = Scenario.registered.2
  ∧ users Scenario.loggedIn.1 !! 0%nat = Some (fields Scenario.alice)
  ∧ Scenario.mine.2
    = Ok [Some [("id", JIdString 0%nat);
                ("title", JString "Checkup");
                ("description", JString "");
                ("startTime", JISOString 1767344400000);
                ("endTime", JISOString 1767348000000);
                ("userId", JIdString 0%nat);
                ("status", JString "pending");
                ("createdAt", JISOString 1767200002000);
                ("updatedAt", JISOString 1767200002002)]]
  ∧ Scenario.fetched.2
    = Ok (Some [("id", JIdString 0%nat);
                ("title", JString "Checkup");
                ("description", JString "");
                ("startTime", JISOString 1767344400000);
                ("endTime", JISOString 1767348000000);
                ("userId", JIdString 0%nat);
                ("status", JString "confirmed");
                ("createdAt", JISOString 1767200002000);
                ("updatedAt", JISOString 1767200003000)]).
Proof. split_and!; vm_compute; reflexivity. Qed.

(** ** The API as a whole: what one request can change *)

Lemma bind_ret_store {A B} (m : M A) (f : A → B) s :
  (bind m (λ r, ret (f r)) s).1 = (m s).1.
Proof. unfold bind, ret. by destruct (m s) as [s' [a|e]]. Qed.

Lemma bind_ret_result {A B} (m : M A) (f : A → B) s :
  (bind m (λ r, ret (f r)) s).2
  = match (m s).2 with
    | Ok a => Ok (f a)
    | Throw e => Throw e
    end.
Proof. unfold bind, ret. by destruct (m s) as [s' [a|e]]. Qed.

Lemma sameDocuments_refl s : sameDocuments s s.
Proof. by split. Qed.

Lemma sameDocuments_logged op s : sameDocuments s (logged op s).
Proof. by split. Qed.

Lemma validate_schemaValid this doc :
  AppointmentSchema.validate this = Ok doc → schemaValid doc.
Proof.
  unfold AppointmentSchema.validate.
  destruct (Appointment.d_startTime this), (Appointment.d_endTime this);
    try done.
  destruct (AppointmentSchema.required _) eqn:Hreq; [|done].
  destruct (AppointmentSchema.enumValidator _) eqn:Henum; [|done].
  simpl. intros [= <-]. split; simpl.
  - by apply bool_decide_eq_true_1 in Hreq.
  - by apply bool_decide_eq_true_1 in Henum.
Qed.

Lemma validate_userId this doc :
  AppointmentSchema.validate this = Ok doc →
  Appointment.userId doc = Appointment.d_userId this.
Proof.
  unfold AppointmentSchema.validate.
  destruct (Appointment.d_startTime this), (Appointment.d_endTime this);
    try done.
  destruct (_ && _); [|done]. by intros [= <-].
Qed.

(** The outcome of [createAppointment]: it throws and leaves the store as it
    was, or it inserts one valid document of the caller under a new id. *)
Lemma createAppointment_effect now input ctx s :
  (∃ e, Mutation.createAppointment now input ctx s = (s, Throw e))
  ∨ ∃ u doc,
      ctx = Some u
      ∧ Mutation.createAppointment now input ctx s
        = (mkStore (users s)
             (<[fresh (dom (appointments s)) := doc]> (appointments s))
             (trace s ++ [Write Appointments]),
           Ok (toAppointmentDTO
                 (Some (mkDocument (fresh (dom (appointments s))) doc))))
      ∧ Appointment.userId doc = _id u
      ∧ validRange doc
      ∧ schemaValid doc.
Proof.
  destruct ctx as [u|]; [|left; by eexists].
  unfold Mutation.createAppointment, bind.
  set (obj := Appointment.mkInit _ _ _ _ _ _).
  destruct (AppointmentSchema.preValidate (AppointmentSchema.construct now obj))
    as [[]|e] eqn:Hpre.
  2:{ left. exists e. by rewrite (create_rejected _ _ _ _ Hpre). }
  destruct (AppointmentSchema.validate (AppointmentSchema.construct now obj))
    as [doc|e] eqn:Hval.
  2:{ left. exists e. by rewrite (create_invalid _ _ _ _ Hpre Hval). }
  right. exists u, (AppointmentSchema.preSave (now 2%nat) doc).
  rewrite (create_inserted _ _ _ _ Hpre Hval). simpl.
  split_and!; try done.
  - by apply validate_userId in Hval.
  - by eapply validate_preSave_range.
  - by apply validate_schemaValid in Hval.
Qed.

(** The outcome of [updateAppointment]: it throws and no document changes,
    or the id cast, the caller was allowed, the update cast and validated,
    and the one document was set. *)
Lemma updateAppointment_effect now id input ctx s :
  (∃ e, (Mutation.updateAppointment now id input ctx s).2 = Throw e
        ∧ sameDocuments s (Mutation.updateAppointment now id input ctx s).1)
  ∨ ∃ u i old upd,
      ctx = Some u
      ∧ id = Oid i
      ∧ appointments s !! i = Some old
      ∧ denied u (mkDocument i old) = false
      ∧ AppointmentSchema.castUpdate (Mutation.updateData now input) = Ok upd
      ∧ AppointmentSchema.updateValidators upd = Ok tt
      ∧ Mutation.updateAppointment now id input ctx s
        = (mkStore (users s)
             (<[i := AppointmentSchema.applySet upd old]> (appointments s))
             (trace s ++ [Read Appointments; Write Appointments]),
           Ok (toAppointmentDTO
                 (Some (mkDocument i (AppointmentSchema.applySet upd old))))).
Proof.
  destruct ctx as [u|]; [|left; eexists; by split].
  destruct id as [id|]; [|left; eexists; by split].
  destruct (appointments s !! id) as [old|] eqn:Hold.
  2:{ left. rewrite updateAppointment_run, Hold. eexists; by split. }
  destruct (denied u (mkDocument id old)) eqn:Hd.
  { left. rewrite updateAppointment_run, Hold, Hd. eexists; by split. }
  rewrite (updateAppointment_allowed _ _ _ _ _ _ Hold Hd).
  destruct (AppointmentSchema.castUpdate _) as [upd|e] eqn:Hc.
  2:{ left. eexists; by split. }
  destruct (AppointmentSchema.updateValidators upd) as [[]|e] eqn:Hv.
  2:{ left. eexists; by split. }
  right. by exists u, id, old, upd.
Qed.

(** The outcome of [deleteAppointment]: it throws and no document changes,
    or the id cast, the caller was allowed and the one document is
    removed. *)
Lemma deleteAppointment_effect id ctx s :
  (∃ e, (Mutation.deleteAppointment id ctx s).2 = Throw e
        ∧ sameDocuments s (Mutation.deleteAppointment id ctx s).1)
  ∨ ∃ u i old,
      ctx = Some u
      ∧ id = Oid i
      ∧ appointments s !! i = Some old
      ∧ denied u (mkDocument i old) = false
      ∧ Mutation.deleteAppointment id ctx s
        = (mkStore (users s) (delete i (appointments s))
             (trace s ++ [Read Appointments; Write Appointments]),
           Ok true).
Proof.
  destruct ctx as [u|]; [|left; eexists; by split].
  destruct id as [id|]; [|left; eexists; by split].
  rewrite deleteAppointment_run.
  destruct (appointments s !! id) as [old|] eqn:Hold.
  2:{ left. eexists; by split. }
  destruct (denied u (mkDocument id old)) eqn:Hd.
  { left. eexists; by split. }
  right. by exists u, id, old.
Qed.

Section ApiProperties.
Variable bcrypt_hash : string → nat → string → string.
Variable bcrypt_compare : string → string → bool.
Variable jwt_sign : ObjectId → Z → string.
Variable defaultRole : string.

Local Abbreviation resolve :=
  (Api.resolve bcrypt_hash bcrypt_compare jwt_sign defaultRole).
Local Abbreviation run :=
  (Api.run bcrypt_hash bcrypt_compare jwt_sign defaultRole).
Local Abbreviation Effect' := (Effect bcrypt_hash defaultRole).

Lemma resolve_store c s :
  (resolve c s).1
  = match Api.operation c with
    | Api.OpMe => (Query.me (Api.caller c) s).1
    | Api.OpUsers => (Query.users s).1
    | Api.OpAppointments => (Query.appointments (Api.caller c) s).1
    | Api.OpAppointment id => (Query.appointment id (Api.caller c) s).1
    | Api.OpMyAppointments => (Query.myAppointments (Api.caller c) s).1
    | Api.OpRegister e p n =>
        (Mutation.register bcrypt_hash jwt_sign defaultRole
           (Api.env_now (Api.env c)) (Api.env_salt (Api.env c)) e p n s).1
    | Api.OpLogin e p =>
        (Mutation.login bcrypt_compare jwt_sign (Api.env_now (Api.env c)) e p
           s).1
    | Api.OpCreateAppointment input =>
        (Mutation.createAppointment (Api.env_clock (Api.env c)) input
           (Api.caller c) s).1
    | Api.OpUpdateAppointment id input =>
        (Mutation.updateAppointment (Api.env_now (Api.env c)) id input
           (Api.caller c) s).1
    | Api.OpDeleteAppointment id =>
        (Mutation.deleteAppointment id (Api.caller c) s).1
    end.
Proof.
  unfold Api.resolve. destruct (Api.operation c); apply bind_ret_store.
Qed.

(** A resolver that only reads leaves the documents as they are. *)
Lemma readsOnly_sameDocuments c s :
  Api.readsOnly (Api.operation c) = true →
  sameDocuments s (resolve c s).1.
Proof.
  intros Hq. rewrite resolve_store.
  destruct (Api.operation c) as [| | |id| |e p n|e p|input|id input|id];
    try done; try (by destruct (Api.caller c)).
  - destruct (Api.caller c) as [u|]; [|done].
    destruct id as [id|]; [|done].
    rewrite appointment_run. apply sameDocuments_logged.
  - rewrite login_run. apply sameDocuments_logged.
Qed.

Lemma resolve_effect c s : Effect' c s (resolve c s).1.
Proof.
  destruct (Api.readsOnly (Api.operation c)) eqn:Hq.
  { apply NoChange. by apply readsOnly_sameDocuments. }
  rewrite resolve_store.
  destruct (Api.operation c) as [| | |id| |e p n|e p|input|id input|id] eqn:Hop;
    try done.
  - rewrite register_run. case_decide as Hnil; simpl.
    + eapply Registered; eauto using fresh_lookup.
      by apply filter_hasEmail_nil.
    + apply NoChange, sameDocuments_logged.
  - destruct (createAppointment_effect (Api.env_clock (Api.env c)) input
                (Api.caller c) s) as [[e ->]|(u & doc & Hu & -> & ? & ? & ?)].
    + apply NoChange, sameDocuments_refl.
    + eapply Created; eauto using fresh_lookup.
  - destruct (updateAppointment_effect (Api.env_now (Api.env c)) id input
                (Api.caller c) s)
      as [(e & _ & ?)|(u & i & old & upd & Hu & -> & ? & ? & ? & ? & ->)].
    + by apply NoChange.
    + eapply Updated; eauto.
  - destruct (deleteAppointment_effect id (Api.caller c) s)
      as [(e & _ & ?)|(u & i & old & Hu & -> & ? & ? & ->)].
    + by apply NoChange.
    + eapply Deleted; eauto.
Qed.

(** X7. Whatever the operation and the caller, one request changes the
    stored documents in one of five ways only: not at all; [register] of an
    email nobody has adds one user under a new id; [createAppointment] adds
    one appointment of the caller, valid for the schema and ending after it
    starts, under a new id; [updateAppointment] and [deleteAppointment] set
    or remove the one appointment named, for a caller who owns it or is an
    admin. *)
Theorem every_request_effect (c : Api.Call) (s : Store) :
  Effect' c s (resolve c s).1.
Proof. apply resolve_effect. Qed.

(** X8. A request that throws changes no stored document, whatever the
    operation, the caller and the error. *)
Theorem failed_request_changes_no_document
    (c : Api.Call) (s : Store) (e : Error) :
  (resolve c s).2 = Throw e →
  sameDocuments s (resolve c s).1.
Proof.
  destruct (Api.readsOnly (Api.operation c)) eqn:Hq.
  { intros _. by apply readsOnly_sameDocuments. }
  rewrite resolve_store. unfold Api.resolve.
  destruct (Api.operation c) as [| | |id| |em p n|em p|input|id input|id];
    try done; rewrite bind_ret_result.
  - rewrite register_run. case_decide; simpl; [done|].
    intros _. apply sameDocuments_logged.
  - destruct (createAppointment_effect (Api.env_clock (Api.env c)) input
                (Api.caller c) s) as [[e' ->]|(u & doc & _ & -> & _)]; [|done].
    intros _. apply sameDocuments_refl.
  - destruct (updateAppointment_effect (Api.env_now (Api.env c)) id input
                (Api.caller c) s)
      as [(e' & _ & ?)|(u & i & old & upd & _ & _ & _ & _ & _ & _ & ->)]; done.
  - destruct (deleteAppointment_effect id (Api.caller c) s)
      as [(e' & _ & ?)|(u & i & old & _ & _ & _ & _ & ->)]; done.
Qed.

Lemma fresh_ne {F} (c : gmap ObjectId F) i x :
  c !! i = Some x → fresh (dom c) ≠ i.
Proof. intros Hi <-. by rewrite fresh_lookup in Hi. Qed.

Lemma resolve_keeps_users c s id u :
  users s !! id = Some u → users (resolve c s).1 !! id = Some u.
Proof.
  intros Hu.
  destruct (resolve_effect c s)
    as [[-> _]|e p n _ _ _ -> _|? ? ? _ _ _ -> |? ? ? ? ? _ _ _ _ _ _ ->
        |? ? ? _ _ _ _ ->]; try done.
  rewrite lookup_insert_ne; [done | by eapply fresh_ne].
Qed.

(** X9. No request removes or changes a user: a user stored at some point is
    stored unchanged, under the same id, after any sequence of requests. *)
Theorem users_are_kept
    (calls : list Api.Call) (s : Store) (id : ObjectId) (u : User.t) :
  users s !! id = Some u →
  users (run calls s) !! id = Some u.
Proof.
  revert s. induction calls as [|c calls IH]; intros s Hu; [done|].
  simpl. by apply IH, resolve_keeps_users.
Qed.

Lemma resolve_keeps_uniqueEmails c s :
  uniqueEmails s → uniqueEmails (resolve c s).1.
Proof.
  intros Huniq.
  destruct (resolve_effect c s)
    as [[Hus _]|e p n _ Hnew Hfresh Hus _|? ? ? _ _ _ Hus
        |? ? ? ? ? _ _ _ _ _ _ Hus|? ? ? _ _ _ _ Hus];
    unfold uniqueEmails; rewrite Hus; try done.
  intros i j u v Hi Hj Hemail.
  apply lookup_insert_Some in Hi as [[<- <-]|[Hni Hi]];
    apply lookup_insert_Some in Hj as [[<- <-]|[Hnj Hj]]; try done.
  - by destruct (Hnew _ _ Hj).
  - by destruct (Hnew _ _ Hi).
  - by eapply Huniq.
Qed.

(** X10. If no two stored users share an email, this still holds after any
    sequence of requests: [register] looks the email up before it creates
    the user. *)
Theorem emails_stay_unique (calls : list Api.Call) (s : Store) :
  uniqueEmails s → uniqueEmails (run calls s).
Proof.
  revert s. induction calls as [|c calls IH]; intros s Hu; [done|].
  simpl. by apply IH, resolve_keeps_uniqueEmails.
Qed.

Lemma updateValidators_ok upd :
  AppointmentSchema.updateValidators upd = Ok tt →
  match AppointmentSchema.s_title upd with
  | Undefined => True
  | Null => False
  | Val t => t ≠ ""
  end
  ∧ match AppointmentSchema.s_status upd with
    | Val v => v ∈ Appointment.statusEnum
    | _ => True
    end.
Proof.
  unfold AppointmentSchema.updateValidators.
  destruct (AppointmentSchema.s_title upd) as [| |t];
    destruct (AppointmentSchema.s_status upd) as [| |v]; simpl; try done;
    unfold AppointmentSchema.required, AppointmentSchema.enumValidator;
    repeat case_bool_decide; simpl; done.
Qed.

Lemma applySet_schemaValid upd old :
  AppointmentSchema.updateValidators upd = Ok tt →
  schemaValid old →
  schemaValid (AppointmentSchema.applySet upd old).
Proof.
  intros [Ht Hs]%updateValidators_ok [Hto Hso].
  unfold schemaValid, AppointmentSchema.applySet. simpl.
  destruct (AppointmentSchema.s_title upd) as [| |t];
    destruct (AppointmentSchema.s_status upd) as [| |v]; done.
Qed.

Lemma resolve_keeps_schemaValid c s :
  allSchemaValid s → allSchemaValid (resolve c s).1.
Proof.
  intros Hall.
  destruct (resolve_effect c s)
    as [[_ Has]|e p n _ _ _ _ Has|? ? doc _ _ _ _ Has _ _ Hdoc
        |? id ? old upd _ _ Hold _ _ Hv _ Has|? ? ? _ _ _ _ _ Has];
    unfold allSchemaValid; rewrite Has; try done.
  - by apply map_Forall_insert_2.
  - apply map_Forall_insert_2; [|done].
    apply applySet_schemaValid; [done|]. by apply (Hall id).
  - by apply map_Forall_delete.
Qed.

(** X11. What the schema's validators demand of a stored appointment (a
    non-empty title, a status that is null or in the enum) holds of every
    stored appointment after any sequence of requests if it held before:
    both [create] and [findByIdAndUpdate] with [runValidators] check it. *)
Theorem schema_validity_is_kept (calls : list Api.Call) (s : Store) :
  allSchemaValid s → allSchemaValid (run calls s).
Proof.
  revert s. induction calls as [|c calls IH]; intros s Hs; [done|].
  simpl. by apply IH, resolve_keeps_schemaValid.
Qed.

Lemma denied_false u d :
  denied u d = false →
  isAdmin u = true ∨ Appointment.userId (fields d) = _id u.
Proof.
  unfold denied. destruct (isAdmin u); [by left|]. simpl.
  intros H%bool_decide_eq_false_1. right.
  by destruct (decide (Appointment.userId (fields d) = _id u)).
Qed.

Lemma outsider_allowed a id u :
  outsider a (Some u) → denied u (mkDocument id a) = false → False.
Proof. intros [Hna Hne] [?|?]%denied_false; [congruence|done]. Qed.

Lemma resolve_outsider c s j a :
  appointments s !! j = Some a →
  outsider a (Api.caller c) →
  appointments (resolve c s).1 !! j = Some a.
Proof.
  intros Ha Hout.
  destruct (resolve_effect c s)
    as [[_ Has]|e p n _ _ _ _ Has|? ? doc _ _ _ _ Has _ _ _
        |u id ? old upd Hu _ Hold Hd _ _ _ Has|u id old Hu _ Hold Hd _ Has];
    rewrite Has; try done.
  - rewrite lookup_insert_ne; [done | by eapply fresh_ne].
  - destruct (decide (id = j)) as [->|Hne].
    + rewrite Hu in Hout. rewrite Ha in Hold. injection Hold as <-.
      by destruct (outsider_allowed _ _ _ Hout Hd).
    + by rewrite lookup_insert_ne.
  - destruct (decide (id = j)) as [->|Hne].
    + rewrite Hu in Hout. rewrite Ha in Hold. injection Hold as <-.
      by destruct (outsider_allowed _ _ _ Hout Hd).
    + by rewrite lookup_delete_ne.
Qed.

(** X12. An appointment is out of reach of everyone but its owner and the
    admins: after any sequence of requests, of any operations, whose callers
    are unauthenticated or are neither the owner nor an admin, it is stored
    exactly as it was. *)
Theorem outsiders_cannot_touch
    (calls : list Api.Call) (s : Store) (j : ObjectId) (a : Appointment.t) :
  appointments s !! j = Some a →
  Forall (λ c, outsider a (Api.caller c)) calls →
  appointments (run calls s) !! j = Some a.
Proof.
  revert s. induction calls as [|c calls IH]; intros s Ha Hout; [done|].
  apply Forall_cons in Hout as [Hc Hout]. simpl.
  by apply IH; [apply resolve_outsider|].
Qed.
End ApiProperties.

Lemma Sample_uniqueEmails : uniqueEmails Sample.store.
Proof.
  intros i j u v Hi Hj He. unfold Sample.store in Hi, Hj. simpl in Hi, Hj.
  repeat (apply lookup_insert_Some in Hi as [[<- <-]|[? Hi]]);
    repeat (apply lookup_insert_Some in Hj as [[<- <-]|[? Hj]]);
    try apply lookup_singleton_Some in Hi as [<- <-];
    try apply lookup_singleton_Some in Hj as [<- <-];
    done.
Qed.

Lemma Sample_allSchemaValid : allSchemaValid Sample.store.
Proof.
  apply map_Forall_singleton. split; [done|]. simpl.
  unfold Appointment.statusEnum. apply list_elem_of_here.
Qed.

(** X8 on the sample store: Bob's update of Alice's appointment is denied. *)
Lemma failed_request_changes_no_document_witness :
  sameDocuments Sample.store
    (Api.resolve Toy.hash Toy.compare Toy.sign "user"
       (Api.mkCall (Some Sample.bob) Sample.env
          (Api.OpUpdateAppointment (Oid 7%nat) Sample.confirm))
       Sample.store).1.
Proof.
  apply (failed_request_changes_no_document Toy.hash Toy.compare Toy.sign
           "user" _ _ AccessDenied).
  vm_compute. reflexivity.
Defined.

(** X9 on the sample session: Alice is still stored. *)
Lemma users_are_kept_witness :
  users (Api.run Toy.hash Toy.compare Toy.sign "user" Sample.session
           Sample.store) !! 1%nat
  = Some (fields Sample.alice).
Proof. apply users_are_kept. reflexivity. Defined.

(** X10 on the sample session. *)
Lemma emails_stay_unique_witness :
  uniqueEmails
    (Api.run Toy.hash Toy.compare Toy.sign "user" Sample.session Sample.store).
Proof. apply emails_stay_unique, Sample_uniqueEmails. Defined.

(** X11 on the sample session. *)
Lemma schema_validity_is_kept_witness :
  allSchemaValid
    (Api.run Toy.hash Toy.compare Toy.sign "user" Sample.session Sample.store).
Proof. apply schema_validity_is_kept, Sample_allSchemaValid. Defined.

(** X12 on the sample store: after Bob's and an anonymous caller's requests
    the checkup is stored as before. *)
Lemma outsiders_cannot_touch_witness :
  appointments
    (Api.run Toy.hash Toy.compare Toy.sign "user" Sample.intrusions
       Sample.store) !! 7%nat
  = Some Sample.checkup.
Proof.
  apply outsiders_cannot_touch; [reflexivity|].
  repeat (apply Forall_cons; split); try apply Forall_nil; simpl;
    try done; split; done.
Defined.

(** ** Registered users can log in, whatever happens in between *)

Section LoginLater.
Import User UserModel.

Variable bcrypt_hash : string → nat → string → string.
Variable bcrypt_compare : string → string → bool.
Variable jwt_sign : ObjectId → Z → string.
Variable defaultRole : string.
Variable jwt_verify : string → option ObjectId.

Hypothesis compare_hash :
  ∀ password rounds salt,
    bcrypt_compare password (bcrypt_hash password rounds salt) = true.

Hypothesis verify_sign :
  ∀ sub now, jwt_verify (jwt_sign sub now) = Some sub.

Local Abbreviation register := (Mutation.register bcrypt_hash jwt_sign defaultRole).
Local Abbreviation login := (Mutation.login bcrypt_compare jwt_sign).
Local Abbreviation resolve :=
  (Api.resolve bcrypt_hash bcrypt_compare jwt_sign defaultRole).
Local Abbreviation run :=
  (Api.run bcrypt_hash bcrypt_compare jwt_sign defaultRole).

Lemma filter_hasEmail_insert_other e k v (c : gmap ObjectId User.t) :
  c !! k = None →
  email v ≠ e →
  filter (hasEmail e) (documents (<[k := v]> c))
  ≡ₚ filter (hasEmail e) (documents c).
Proof.
  intros Hk Hne. rewrite (documents_insert _ _ _ Hk).
  by rewrite filter_cons_False.
Qed.

(** The one user with email [e] stays the one user with email [e]. *)
Lemma resolve_keeps_account e d c s :
  filter (hasEmail e) (documents (users s)) = [d] →
  filter (hasEmail e) (documents (users (resolve c s).1)) = [d].
Proof.
  intros Hd.
  destruct (resolve_effect bcrypt_hash bcrypt_compare jwt_sign defaultRole c s)
    as [[Hus _]|e' p n _ Hnew Hfresh Hus _|? ? ? _ _ _ Hus
        |? ? ? ? ? _ _ _ _ _ _ Hus|? ? ? _ _ _ _ Hus];
    rewrite Hus; try done.
  apply Permutation_singleton_r.
  rewrite filter_hasEmail_insert_other; [by rewrite Hd | done |].
  simpl. intros ->.
  assert (Hin : d ∈ filter (hasEmail e) (documents (users s)))
    by (rewrite Hd; apply list_elem_of_here).
  apply list_elem_of_filter in Hin as [He Hin%elem_of_documents].
  by apply (Hnew _ _ Hin).
Qed.

Lemma run_keeps_account e d calls s :
  filter (hasEmail e) (documents (users s)) = [d] →
  filter (hasEmail e) (documents (users (run calls s))) = [d].
Proof.
  revert s. induction calls as [|c calls IH]; intros s Hd; [done|].
  simpl. by apply IH, resolve_keeps_account.
Qed.

(** X13. Once an email nobody had is registered, a login with that email
    and password succeeds after any sequence of further requests (other
    registrations, logins, appointment calls, by anyone): it returns the DTO
    of the user [register] created and a token whose subject is that user's
    id. *)
Theorem login_after_any_requests
    (now later : Z) (salt e p : string) (n : option string)
    (calls : list Api.Call) (s : Store) :
  (∀ id u, users s !! id = Some u → email u ≠ e) →
  let id := fresh (dom (users s)) in
  let u := newUser bcrypt_hash defaultRole now salt e p n in
  let s1 := (register now salt e p n s).1 in
  ∃ s2 tok,
    login later e p (run calls s1)
    = (s2, Ok (mkAuthPayload tok (toUserDTO (Some (mkDocument id u)))))
    ∧ jwt_verify tok = Some id.
Proof.
  intros Hfresh%filter_hasEmail_nil id u s1.
  assert (Hacc : filter (hasEmail e) (documents (users s1))
                 = [mkDocument id u]).
  { unfold s1. rewrite register_run, decide_True by done. simpl.
    by apply filter_hasEmail_insert; [apply fresh_lookup| |]. }
  eexists _, _. split.
  - rewrite login_run, (run_keeps_account _ _ calls _ Hacc). simpl.
    unfold u at 1, newUser. simpl. rewrite compare_hash. reflexivity.
  - apply verify_sign.
Qed.

(** X14. A successful [login] answers for a stored user: some stored user
    has the email and a hash that [bcrypt.compare] accepts for the password;
    the payload holds that user's DTO and a token signed for that user's id;
    and no document changes. *)
Theorem login_success_is_sound
    (now : Z) (e p : string) (s s' : Store) (r : AuthPayload) :
  login now e p s = (s', Ok r) →
  ∃ id u,
    users s !! id = Some u
    ∧ email u = e
    ∧ bcrypt_compare p (passwordHash u) = true
    ∧ r = mkAuthPayload (jwt_sign id now) (toUserDTO (Some (mkDocument id u)))
    ∧ sameDocuments s s'.
Proof.
  rewrite login_run.
  destruct (head _) as [d|] eqn:Hd; [|done].
  apply head_Some_elem_of, list_elem_of_filter in Hd as [He Hd].
  apply elem_of_documents in Hd.
  destruct (bcrypt_compare p _) eqn:Hc; [|done].
  intros [= <- <-]. exists (_id d), (fields d).
  split_and!; try done; by destruct d.
Qed.
End LoginLater.

(** X13 on the sample store: Dave registers, the sample session runs, Dave
    logs in. *)
Lemma login_after_any_requests_witness :
  let id := fresh (dom (users Sample.store)) in
  let u := newUser Toy.hash "user" Sample.now "salt" "dave@example.com"
             "hunter2" None in
  let s1 := (Mutation.register Toy.hash Toy.sign "user" Sample.now "salt"
               "dave@example.com" "hunter2" None Sample.store).1 in
  ∃ s2 tok,
    Mutation.login Toy.compare Toy.sign (Sample.now + 5000) "dave@example.com"
      "hunter2" (Api.run Toy.hash Toy.compare Toy.sign "user" Sample.session s1)
    = (s2, Ok (mkAuthPayload tok (toUserDTO (Some (mkDocument id u)))))
    ∧ Toy.verify tok = Some id.
Proof.
  apply (login_after_any_requests Toy.hash Toy.compare Toy.sign "user"
           Toy.verify Toy_compare_hash Toy_verify_sign).
  apply filter_hasEmail_nil. vm_compute. reflexivity.
Defined.

Lemma login_bob_sample :
  Mutation.login Toy.compare Toy.sign Sample.now "bob@example.com"
    "bob$01$a2$" Sample.store
  = (logged (Read Users) Sample.store,
     Ok (mkAuthPayload (Toy.sign 2%nat Sample.now) (toUserDTO (Some Sample.bob)))).
Proof. vm_compute. reflexivity. Defined.

(** X14 on the sample store: Bob logs in. *)
Lemma login_success_is_sound_witness :
  ∃ id u,
    users Sample.store !! id = Some u
    ∧ User.email u = "bob@example.com"
    ∧ Toy.compare "bob$01$a2$" (User.passwordHash u) = true
    ∧ mkAuthPayload (Toy.sign 2%nat Sample.now) (toUserDTO (Some Sample.bob))
      = mkAuthPayload (Toy.sign id Sample.now)
          (toUserDTO (Some (mkDocument id u)))
    ∧ sameDocuments Sample.store (logged (Read Users) Sample.store).
Proof.
  exact (login_success_is_sound Toy.compare Toy.sign _ _ _ _ _ _
           login_bob_sample).
Defined.

(** ** Writing an appointment and reading it back *)

(** X15. What [createAppointment] returns is what [appointment(id)] returns
    afterwards, to the creator and to any admin, for the id of the DTO: the
    appointment is stored under an id no appointment had. *)
Theorem created_appointment_is_read_back
    (now : Clock) (input : AppointmentInput) (u : Document User.t)
    (s s1 : Store) (r : option JSObject) :
  Mutation.createAppointment now input (Some u) s = (s1, Ok r) →
  ∃ id,
    appointments s !! id = None
    ∧ (∃ o, r = Some o ∧ o !! 0%nat = Some ("id", JIdString id))
    ∧ ∀ reader,
        _id reader = _id u ∨ isAdmin reader = true →
        Query.appointment (Oid id) (Some reader) s1
        = (logged (Read Appointments) s1, Ok r).
Proof.
  intros Hcreate.
  destruct (createAppointment_effect now input (Some u) s)
    as [[e He]|(u' & doc & [= <-] & Heq & Hown & _)]; [congruence|].
  rewrite Heq in Hcreate. injection Hcreate as <- <-.
  exists (fresh (dom (appointments s))). split_and!.
  - apply fresh_lookup.
  - by eexists.
  - intros reader Hreader. rewrite appointment_run. simpl.
    rewrite lookup_insert_eq.
    destruct Hreader as [Hsame|Hadm].
    + rewrite denied_owner; [done|]. simpl. congruence.
    + by rewrite denied_admin.
Qed.

(** X16. What a successful [updateAppointment] returns is what
    [appointment(id)] returns to the same caller afterwards. *)
Theorem updated_appointment_is_read_back
    (now : Z) (id : ID) (input : AppointmentUpdateInput)
    (u : Document User.t) (s s1 : Store) (r : option JSObject) :
  Mutation.updateAppointment now id input (Some u) s = (s1, Ok r) →
  Query.appointment id (Some u) s1 = (logged (Read Appointments) s1, Ok r).
Proof.
  intros (i & old & upd & -> & Hold & Hd & _ & _ & -> & ->)%updateAppointment_success.
  rewrite appointment_run. simpl. rewrite lookup_insert_eq.
  unfold denied in *. simpl in *. by rewrite Hd.
Qed.

(** X17. A successful [deleteAppointment] returns true and removes exactly
    the appointment named: every other appointment and every user are
    stored as before, and afterwards [appointment(id)], [updateAppointment]
    and [deleteAppointment] on that id throw 'Appointment not found' for
    every authenticated caller. *)
Theorem deleted_appointment_is_gone
    (id : ID) (u : Document User.t) (s s1 : Store) (b : bool) :
  Mutation.deleteAppointment id (Some u) s = (s1, Ok b) →
  ∃ i,
    id = Oid i
    ∧ b = true
    ∧ users s1 = users s
    ∧ appointments s1 = delete i (appointments s)
    ∧ ∀ now input reader,
        Query.appointment id (Some reader) s1
        = (logged (Read Appointments) s1, Throw NotFound)
        ∧ Mutation.updateAppointment now id input (Some reader) s1
          = (logged (Read Appointments) s1, Throw NotFound)
        ∧ Mutation.deleteAppointment id (Some reader) s1
          = (logged (Read Appointments) s1, Throw NotFound).
Proof.
  intros Hdel.
  destruct (deleteAppointment_effect id (Some u) s)
    as [(e & He & _)|(u' & i & old & _ & -> & _ & _ & Heq)].
  { rewrite Hdel in He. done. }
  rewrite Heq in Hdel. injection Hdel as <- <-.
  exists i. split_and!; try done.
  intros now input reader.
  rewrite appointment_run, updateAppointment_run, deleteAppointment_run.
  simpl. by rewrite lookup_delete_eq.
Qed.

(** X18. [users] returns the DTO of every stored user exactly once, newest
    first, to any caller, after one read of the collection. *)
Theorem users_lists_everyone (s : Store) :
  ∃ docs : list (Document User.t),
    Query.users s
    = (logged (Read Users) s, Ok ((λ u, toUserDTO (Some u)) <$> docs))
    ∧ NoDup docs
    ∧ Sorted UserModel.byCreatedAtDesc docs
    ∧ ∀ d, d ∈ docs ↔ users s !! _id d = Some (fields d).
Proof.
  eexists. split; [apply users_run|].
  assert (Hperm : merge_sort UserModel.byCreatedAtDesc (documents (users s))
                  ≡ₚ documents (users s)) by apply merge_sort_Permutation.
  split_and!.
  - rewrite Hperm. apply NoDup_documents.
  - apply Sorted_merge_sort.
    intros a b. unfold UserModel.byCreatedAtDesc. lia.
  - intros d. by rewrite Hperm, elem_of_documents.
Qed.

(** X15 on Alice's booking. *)
Lemma created_appointment_is_read_back_witness :
  ∃ id,
    appointments Sample.store !! id = None
    ∧ (∃ o, toAppointmentDTO (Some (mkDocument Sample.bookedId Sample.booked))
            = Some o
            ∧ o !! 0%nat = Some ("id", JIdString id))
    ∧ ∀ reader,
        _id reader = _id Sample.alice ∨ isAdmin reader = true →
        Query.appointment (Oid id) (Some reader) Sample.afterBooking
        = (logged (Read Appointments) Sample.afterBooking,
           Ok (toAppointmentDTO
                 (Some (mkDocument Sample.bookedId Sample.booked)))).
Proof.
  exact (created_appointment_is_read_back Sample.clock Sample.booking
           Sample.alice Sample.store Sample.afterBooking _
           createAppointment_booking_sample).
Defined.

(** X16 on Alice's [confirm] update. *)
Lemma updated_appointment_is_read_back_witness :
  Query.appointment (Oid 7%nat) (Some Sample.alice) Sample.afterConfirm
  = (logged (Read Appointments) Sample.afterConfirm,
     Ok (toAppointmentDTO (Some (mkDocument 7%nat Sample.confirmed)))).
Proof.
  exact (updated_appointment_is_read_back Sample.now (Oid 7%nat) Sample.confirm
           Sample.alice Sample.store Sample.afterConfirm _
           updateAppointment_confirm_sample).
Defined.

Lemma deleteAppointment_sample :
  Mutation.deleteAppointment (Oid 7%nat) (Some Sample.root) Sample.store
  = (mkStore (users Sample.store) ∅ [Read Appointments; Write Appointments],
     Ok true).
Proof. vm_compute. reflexivity. Defined.

(** X17 on the sample store: the admin deletes the checkup. *)
Lemma deleted_appointment_is_gone_witness :
  ∃ i,
    Oid 7%nat = Oid i
    ∧ true = true
    ∧ users Sample.store = users Sample.store
    ∧ (∅ : gmap ObjectId Appointment.t) = delete i (appointments Sample.store)
    ∧ ∀ now input reader,
        let s1 := mkStore (users Sample.store) ∅
                    [Read Appointments; Write Appointments] in
        Query.appointment (Oid 7%nat) (Some reader) s1
        = (logged (Read Appointments) s1, Throw NotFound)
        ∧ Mutation.updateAppointment now (Oid 7%nat) input (Some reader) s1
          = (logged (Read Appointments) s1, Throw NotFound)
        ∧ Mutation.deleteAppointment (Oid 7%nat) (Some reader) s1
          = (logged (Read Appointments) s1, Throw NotFound).
Proof.
  exact (deleted_appointment_is_gone (Oid 7%nat) Sample.root Sample.store _ _
           deleteAppointment_sample).
Defined.

(** ** The example client *)

Section ClientProperties.
Import Client.

Variable E : Type.
Variable exchange : Request → E → E * Outcome.
Variable dateNow : E → Z.
Variable sleep : Z → E → E.
Variable stringify : Json → string.
Variable parse : string → option Json.
Variable describe : Json → string.
Variable plusOneHour : Z → Z.
Variable toISOString : Z → string.

Local Abbreviation send := (Client.send E exchange).
Local Abbreviation restOptions := (Client.restOptions stringify describe).
Local Abbreviation restRequest :=
  (Client.restRequest E exchange stringify parse describe).
Local Abbreviation graphqlOptions := (Client.graphqlOptions stringify describe).
Local Abbreviation graphqlRequest :=
  (Client.graphqlRequest E exchange stringify parse describe).
Local Abbreviation graphqlTest :=
  (Client.graphqlTest E exchange stringify parse describe).

Local Abbreviation after := (afterRequest exchange).

Lemma send_run r w : send r w = (after r w, (exchange r (environment w)).2).
Proof.
  unfold Client.send, afterRequest. by destruct (exchange r (environment w)).
Qed.

Lemma restRequest_world m p b t w :
  (restRequest m p b t w).1 = after (restOptions m p b t) w.
Proof.
  unfold Client.restRequest, andThen. rewrite send_run.
  destruct (exchange _ _).2 as [st d|msg]; simpl; [|done].
  case_decide; [done|]. by destruct (parse d).
Qed.

Lemma graphqlRequest_world q v t w :
  (graphqlRequest q v t w).1 = after (graphqlOptions q v t) w.
Proof.
  unfold Client.graphqlRequest, andThen. rewrite send_run.
  destruct (exchange _ _).2 as [st d|msg]; simpl; [|done].
  case_decide.
  - case_decide; [done|]. by destruct (parse d).
  - destruct (parse d) as [[| | | | |ms]|]; simpl; try done.
    destruct (assoc "errors" ms) as [errors|]; [|done].
    by destruct (truthyJson errors).
Qed.

Lemma graphqlTest_world q v t pick w :
  (graphqlTest q v t pick w).1 = after (graphqlOptions q v t) w.
Proof.
  unfold Client.graphqlTest, andThen.
  pose proof (graphqlRequest_world q v t w) as H.
  destruct (graphqlRequest q v t w) as [w' [r|r]]; simpl in *; by subst.
Qed.

Local Abbreviation testMe := (Client.testMe E exchange stringify parse describe).
Local Abbreviation testCreateAppointment :=
  (Client.testCreateAppointment E exchange dateNow stringify parse describe
     plusOneHour toISOString).
Local Abbreviation testGetAppointments :=
  (Client.testGetAppointments E exchange stringify parse describe).
Local Abbreviation testGetAppointment :=
  (Client.testGetAppointment E exchange stringify parse describe).
Local Abbreviation testUpdateAppointment :=
  (Client.testUpdateAppointment E exchange stringify parse describe).
Local Abbreviation testRestRegister :=
  (Client.testRestRegister E exchange dateNow stringify parse describe).
Local Abbreviation testRestLogin :=
  (Client.testRestLogin E exchange stringify parse describe).
Local Abbreviation runGraphQLTests :=
  (Client.runGraphQLTests E exchange dateNow stringify parse describe
     plusOneHour toISOString).
Local Abbreviation afterWait :=
  (Client.afterWait E exchange dateNow stringify parse describe plusOneHour
     toISOString).
Local Abbreviation attempt := (Client.attempt E exchange dateNow sleep).
Local Abbreviation waitForGraphQLEndpoint :=
  (Client.waitForGraphQLEndpoint E exchange dateNow sleep).
Local Abbreviation runTests :=
  (Client.runTests E exchange dateNow sleep stringify parse describe
     plusOneHour toISOString).

Lemma andThen_run {A B} (m : C E A) (f : A → C E B) w :
  andThen E m f w = f (m w).2 (m w).1.
Proof. unfold andThen. by destruct (m w). Qed.

(** X19. [graphqlRequest] resolves, with [result], exactly when the server
    answers with status 200 and a body that parses to [result], where
    [result] is not null and has no truthy [errors] member. Any other
    status, an unparsable body, a null result, reported errors and a failed
    exchange all reject. One request is sent either way. *)
Theorem graphqlRequest_resolves_iff
    (query : string) (variables token : Value) (w : World E) (result : Json) :
  graphqlRequest query variables token w
  = (after (graphqlOptions query variables token) w, Resolved result)
  ↔ ∃ data,
      (exchange (graphqlOptions query variables token) (environment w)).2
      = Answered 200 data
      ∧ parse data = Some result
      ∧ result ≠ JsNull
      ∧ truthy (member "errors" result) = false.
Proof.
  unfold Client.graphqlRequest, Client.pure.
  rewrite andThen_run, send_run. simpl.
  destruct (exchange _ _).2 as [st d|msg]; simpl.
  2:{ split; [done|]. by intros (? & ? & _). }
  split.
  - intros H. repeat case_decide; repeat case_match; simplify_eq.
    all: exists d; split_and!; try done.
    all: match goal with H : member _ _ = _ |- _ => by rewrite H end.
  - intros (d' & ? & Hp & Hnull & Herr). simplify_eq.
    rewrite decide_False by (by intros ?). rewrite Hp.
    destruct result as [| | | | |ms]; try done.
    destruct (member "errors" (JsObject ms)) as [errors|]; [|done].
    simpl in Herr. by rewrite Herr.
Qed.

(** X20. [restRequest] does not look at the status: whatever status the
    server answers with, the promise resolves with that status, and with the
    parsed body, or [{}] for an empty one. It rejects only when the
    exchange fails or a non-empty body does not parse. *)
Theorem restRequest_resolves_on_any_status
    (method path : string) (body token : Value) (w : World E)
    (statusCode : Z) (data : string) :
  (exchange (restOptions method path body token) (environment w)).2
  = Answered statusCode data →
  restRequest method path body token w
  = (after (restOptions method path body token) w,
     if decide (data = "")
     then Resolved (mkRestResult statusCode (JsObject []))
     else match parse data with
          | Some result => Resolved (mkRestResult statusCode result)
          | None => Rejected ParseFailed
          end).
Proof.
  intros Hx. unfold Client.restRequest, Client.pure.
  rewrite andThen_run, send_run. simpl. rewrite Hx.
  case_decide; [done|]. by destruct (parse data).
Qed.

Lemma testCreateAppointment_world token w :
  ∃ variables,
    (testCreateAppointment token w).1
    = after (graphqlOptions createAppointmentMutation (Some variables) token) w.
Proof.
  unfold Client.testCreateAppointment. eexists. apply graphqlTest_world.
Qed.

(** What [runGraphQLTests] sends, request by request. *)
Lemma runGraphQLTests_sent (token : Value) (w : World E) :
  let created := testCreateAppointment token (testMe token w).1 in
  (∃ variables,
     sent created.1
     = (sent w
        ++ [graphqlOptions meQuery (Some JsNull) token;
            graphqlOptions createAppointmentMutation (Some variables) token])%list)
  ∧ sent (runGraphQLTests token w).1
    = (sent created.1 ++
       if truthy created.2
         then [graphqlOptions appointmentsQuery (Some JsNull) token;
               graphqlOptions appointmentQuery
                 (Some (object [("id", created.2)])) token;
               graphqlOptions updateAppointmentMutation
                 (Some (object
                          [("id", created.2);
                           ("input",
                            Some (object
                                    [("title",
                                      Some (JsString "Updated Appointment Title"));
                                     ("status",
                                      Some (JsString "confirmed"))]))]))
                 token]
         else [])%list.
Proof.
  intros created. split.
  - destruct (testCreateAppointment_world token (testMe token w).1)
      as [variables Hw].
    exists variables. unfold created. rewrite Hw. simpl.
    unfold Client.testMe. rewrite graphqlTest_world. simpl.
    by rewrite <- app_assoc.
  - unfold Client.runGraphQLTests. rewrite !andThen_run. fold created.
    destruct (truthy created.2); [|by rewrite app_nil_r].
    rewrite !andThen_run. unfold Client.pure. simpl.
    unfold Client.testUpdateAppointment, Client.testGetAppointment,
      Client.testGetAppointments.
    rewrite !graphqlTest_world. simpl. by rewrite <- !app_assoc.
Qed.

Lemma graphqlPost_intro q v token :
  q ∈ scriptQueries →
  graphqlPost stringify describe token (graphqlOptions q v token).
Proof. intros Hq. by exists q, v. Qed.

(** The requests of [runGraphQLTests]: two, or five when the created id is
    truthy, each a POST to /graphql with the token, for one of the script's
    five query documents. *)
Lemma runGraphQLTests_posts token w :
  ∃ reqs,
    sent (runGraphQLTests token w).1 = (sent w ++ reqs)%list
    ∧ Forall (graphqlPost stringify describe token) reqs
    ∧ length reqs
      = if truthy (testCreateAppointment token (testMe token w).1).2
        then 5%nat else 2%nat.
Proof.
  destruct (runGraphQLTests_sent token w) as [[variables Hc] Hall].
  rewrite Hc in Hall. rewrite Hall, <- app_assoc. clear Hc Hall.
  destruct (truthy _); eexists; (split; [reflexivity|]); (split; [|done]);
    repeat (apply Forall_cons_2;
            [apply graphqlPost_intro; unfold scriptQueries;
             repeat (first [apply list_elem_of_here
                           | apply list_elem_of_further])|]);
    apply Forall_nil_2.
Qed.

(** X21. [runGraphQLTests] sends the [me] query and the [createAppointment]
    mutation, in this order; it then sends the [appointments] query, the
    [appointment] query and the [updateAppointment] mutation, the last two
    for the id that [createAppointment] returned, exactly when that id is
    truthy, and nothing otherwise. Every request is a POST to /graphql that
    carries the token given; the [deleteAppointment] mutation is not among
    the documents sent. *)
Theorem runGraphQLTests_requests (token : Value) (w : World E) :
  let created := testCreateAppointment token (testMe token w).1 in
  ∃ variables,
    sent (runGraphQLTests token w).1
    = (sent w
       ++ [graphqlOptions meQuery (Some JsNull) token;
           graphqlOptions createAppointmentMutation (Some variables) token]
       ++ if truthy created.2
          then [graphqlOptions appointmentsQuery (Some JsNull) token;
                graphqlOptions appointmentQuery
                  (Some (object [("id", created.2)])) token;
                graphqlOptions updateAppointmentMutation
                  (Some (object
                           [("id", created.2);
                            ("input",
                             Some (object
                                     [("title",
                                       Some (JsString "Updated Appointment Title"));
                                      ("status",
                                       Some (JsString "confirmed"))]))]))
                  token]
          else [])%list
    ∧ (∀ r, r ∈ sent (runGraphQLTests token w).1 →
            r ∈ sent w ∨ graphqlPost stringify describe token r)
    ∧ deleteAppointmentMutation ∉ scriptQueries.
Proof.
  intros created.
  destruct (runGraphQLTests_sent token w) as [[variables Hc] Hall].
  fold created in Hc, Hall. exists variables. split_and!.
  - by rewrite Hall, Hc, <- app_assoc.
  - destruct (runGraphQLTests_posts token w) as (reqs & -> & Hposts & _).
    intros r [?|Hr]%elem_of_app; [by left|right].
    by eapply Forall_forall in Hposts.
  - unfold scriptQueries. rewrite !not_elem_of_cons.
    split_and!; [done.. | apply not_elem_of_nil].
Qed.

(** [testRestRegister]: one POST to /auth/register, without a token, of a
    fresh email; the email is returned when the status is 201 and the
    promise resolved, [null] otherwise. *)
Lemma testRestRegister_run w :
  let email :=
    "test" +:+ pretty (dateNow (environment w)) +:+ "@example.com" in
  let request :=
    restOptions "POST" "/auth/register"
      (Some (object [("email", Some (JsString email));
                     ("password", Some (JsString "password123"));
                     ("name", Some (JsString "Test User"))]))
      (Some JsNull) in
  (testRestRegister w).1 = after request w
  ∧ (testRestRegister w).2
    = match (exchange request (environment w)).2 with
      | Answered statusCode data =>
          if decide (statusCode = 201 ∧ (data = "" ∨ is_Some (parse data)))
          then Some (JsString email)
          else Some JsNull
      | Failed _ => Some JsNull
      end.
Proof.
  intros email request. unfold Client.testRestRegister. fold email.
  rewrite andThen_run, restRequest_world. fold request. split.
  - by repeat case_match.
  - unfold Client.restRequest, Client.pure. rewrite andThen_run, send_run.
    fold request. simpl.
    destruct (exchange request (environment w)).2 as [st d|msg]; simpl; [|done].
    destruct (decide (d = "")) as [->|Hd]; simpl.
    + repeat case_decide; try done; exfalso; intuition.
    + destruct (parse d) as [j|] eqn:Hp; simpl; repeat case_decide;
        try done; exfalso.
      * intuition eauto.
      * intuition eauto.
      * match goal with H : _ ∧ (_ ∨ is_Some None) |- _ =>
          destruct H as [_ [?|[? ?]]]; done end.
Qed.

Lemma testRestLogin_world e p w :
  (testRestLogin e p w).1
  = after (restOptions "POST" "/auth/login"
             (Some (object [("email", e); ("password", p)])) (Some JsNull)) w.
Proof.
  unfold Client.testRestLogin. rewrite andThen_run, restRequest_world.
  unfold Client.pure. by repeat case_match.
Qed.

(** X22. [testRestLogin] returns [null] or a truthy token, and a token only
    when the server answered the login with status 200 and a body that
    parses to a value, not null, whose [token] member is that token. *)
Theorem testRestLogin_token (e p : Value) (w : World E) :
  let request :=
    restOptions "POST" "/auth/login"
      (Some (object [("email", e); ("password", p)])) (Some JsNull) in
  (testRestLogin e p w).2 = Some JsNull
  ∨ truthy (testRestLogin e p w).2 = true
    ∧ ∃ data result,
        (exchange request (environment w)).2 = Answered 200 data
        ∧ parse data = Some result
        ∧ result ≠ JsNull
        ∧ member "token" result = (testRestLogin e p w).2.
Proof.
  intros request. unfold Client.testRestLogin, Client.restRequest, Client.pure.
  rewrite !andThen_run, send_run. fold request. simpl.
  destruct (exchange request (environment w)).2 as [st d|msg]; simpl;
    [|by left].
  destruct (decide (d = "")) as [->|Hd]; simpl.
  { case_decide; by left. }
  destruct (parse d) as [result|] eqn:Hp; simpl; [|by left].
  case_decide as Hst; simpl; [|by left]. subst st.
  destruct result as [| | | | |ms]; simpl; try by left.
  destruct (truthy (assoc "token" ms)) eqn:Ht; simpl; [|by left].
  right. split; [done|]. by exists d, (JsObject ms).
Qed.

Lemma restOptions_no_token m p b :
  "Authorization" ∉ (headers (restOptions m p b (Some JsNull))).*1.
Proof.
  unfold Client.restOptions. simpl. rewrite app_nil_r.
  destruct (nonEmpty _); simpl; rewrite !not_elem_of_cons;
    split_and!; try done; apply not_elem_of_nil.
Qed.

(** X23. After the wait, [runTests] always sends, in this order, one POST
    to /auth/register for a fresh email [test<now>@example.com] and one
    POST to /auth/login, both without an Authorization header: with the
    fresh email when the registration was answered with status 201 (and a
    body that is empty or parses), with test@example.com otherwise, and
    password123 either way. GraphQL requests follow only when the login
    returned a truthy token; they are the two or five requests of
    [runGraphQLTests], each carrying that token. *)
Theorem afterWait_protocol (w : World E) :
  let generated :=
    "test" +:+ pretty (dateNow (environment w)) +:+ "@example.com" in
  let register :=
    restOptions "POST" "/auth/register"
      (Some (object [("email", Some (JsString generated));
                     ("password", Some (JsString "password123"));
                     ("name", Some (JsString "Test User"))]))
      (Some JsNull) in
  let accepted :=
    match (exchange register (environment w)).2 with
    | Answered statusCode data =>
        bool_decide (statusCode = 201 ∧ (data = "" ∨ is_Some (parse data)))
    | Failed _ => false
    end in
  let email := if accepted then generated else "test@example.com" in
  let credentials :=
    [("email", Some (JsString email));
     ("password", Some (JsString "password123"))] in
  let login := restOptions "POST" "/auth/login" (Some (object credentials))
                 (Some JsNull) in
  let token :=
    (testRestLogin (Some (JsString email)) (Some (JsString "password123"))
       (after register w)).2 in
  ∃ gql,
    sent (afterWait w).1 = (sent w ++ [register; login] ++ gql)%list
    ∧ ("Authorization" ∉ (headers register).*1)
    ∧ ("Authorization" ∉ (headers login).*1)
    ∧ if truthy token
      then Forall (graphqlPost stringify describe token) gql
           ∧ (length gql = 2 ∨ length gql = 5)%nat
      else gql = [].
Proof.
  intros generated register accepted email credentials login token.
  destruct (testRestRegister_run w) as [Hw Hv].
  fold generated register in Hw, Hv.
  assert (Hlogin :
    ∀ e, (testRestLogin (Some (JsString e)) (Some (JsString "password123"))
            (after register w)).1
         = after (restOptions "POST" "/auth/login"
                    (Some (object [("email", Some (JsString e));
                                   ("password", Some (JsString "password123"))]))
                    (Some JsNull)) (after register w))
    by (intros e; apply testRestLogin_world).
  assert (Hemail : (testRestRegister w).2
                   = if accepted then Some (JsString generated)
                     else Some JsNull).
  { rewrite Hv. unfold accepted.
    destruct (exchange register (environment w)).2; [|done].
    by case_bool_decide; [rewrite decide_True|rewrite decide_False]. }
  assert (Hsent :
    sent (afterWait w).1
    = sent (if truthy token
            then (runGraphQLTests token
                    (after login (after register w))).1
            else after login (after register w))).
  { unfold Client.afterWait. rewrite andThen_run, Hw, Hemail.
    unfold token, login, credentials, email.
    destruct accepted; simpl; rewrite andThen_run, Hlogin;
      by destruct (truthy _). }
  pose proof (restOptions_no_token "POST" "/auth/register"
                (Some (object [("email", Some (JsString generated));
                               ("password", Some (JsString "password123"));
                               ("name", Some (JsString "Test User"))])))
    as Hregister.
  pose proof (restOptions_no_token "POST" "/auth/login"
                (Some (object credentials))) as Hlogin'.
  fold register in Hregister. fold login in Hlogin'.
  rewrite Hsent. destruct (truthy token).
  - destruct (runGraphQLTests_posts token (after login (after register w)))
      as (gql & Hg & Hposts & Hlen).
    exists gql. rewrite Hg. split_and!; try done.
    + unfold afterRequest at 1 2. simpl. by rewrite <- !app_assoc.
    + destruct (truthy _); auto.
  - exists []. split_and!; try done.
    unfold afterRequest at 1 2. simpl. by rewrite <- !app_assoc.
Qed.

(** The probes of the wait: under a clock that does not run backwards and
    timers that wait at least as long as asked, the wait settles within
    [bound] probes when [timeoutMs <= (bound - 1) * intervalMs]. *)
Lemma attempt_terminates timeoutMs intervalMs :
  0 < intervalMs →
  (∀ d e, dateNow e + d ≤ dateNow (sleep d e)) →
  (∀ r e, dateNow e ≤ dateNow (exchange r e).1) →
  ∀ (bound fuel : nat) start w,
    (1 ≤ bound ≤ fuel)%nat →
    timeoutMs - (dateNow (environment w) - start)
    ≤ (Z.of_nat bound - 1) * intervalMs →
    ∃ w' r n,
      attempt fuel start timeoutMs intervalMs w = Some (w', r)
      ∧ (1 ≤ n ≤ bound)%nat
      ∧ sent w' = (sent w ++ replicate n probe)%list
      ∧ (r = Resolved true ∨ r = Rejected TimedOut).
Proof.
  intros Hi Hsleep Hclock bound.
  induction bound as [|bound IH]; intros fuel start w [Hb Hf] Hleft; [lia|].
  destruct fuel as [|fuel]; [lia|]. simpl. rewrite send_run.
  pose proof (Hclock probe (environment w)) as Hnow.
  assert (Hagain :
    ∃ w' r n,
      (if decide (timeoutMs ≤ dateNow (environment (after probe w)) - start)
       then Some (after probe w, Rejected TimedOut)
       else attempt fuel start timeoutMs intervalMs
              (mkWorld (sleep intervalMs (environment (after probe w)))
                 (sent (after probe w))))
      = Some (w', r)
      ∧ (1 ≤ n ≤ S bound)%nat
      ∧ sent w' = (sent w ++ replicate n probe)%list
      ∧ (r = Resolved true ∨ r = Rejected TimedOut)).
  { case_decide as Hout.
    - exists (after probe w), (Rejected TimedOut), 1%nat.
      split_and!; auto; lia.
    - simpl in Hout.
      pose proof (Hsleep intervalMs (exchange probe (environment w)).1).
      destruct (IH fuel start
                  (mkWorld (sleep intervalMs (environment (after probe w)))
                     (sent (after probe w))))
        as (w' & r & n & Heq & Hn & Hs & Hr).
      + simpl in *. nia.
      + simpl in *. nia.
      + exists w', r, (S n). rewrite Heq, Hs. simpl.
        rewrite <- app_assoc. split_and!; auto; lia. }
  destruct (exchange probe (environment w)).2 as [st d|msg]; [|done].
  destruct (decide (st ≠ 404)); [|done].
  exists (after probe w), (Resolved true), 1%nat. split_and!; auto; lia.
Qed.

(** X24. With a clock that does not run backwards and timers that wait at
    least as long as asked, [runTests] comes to an end for any fuel of 33
    or more: the wait, with its timeout of 8000 ms and interval of 250 ms,
    sends between 1 and 33 probes (GET /graphql), resolves or times out,
    and the script goes on to register either way. *)
Theorem runTests_terminates (fuel : nat) (w : World E) :
  (∀ d e, dateNow e + d ≤ dateNow (sleep d e)) →
  (∀ r e, dateNow e ≤ dateNow (exchange r e).1) →
  (33 ≤ fuel)%nat →
  ∃ w1 r n,
    waitForGraphQLEndpoint fuel 8000 250 w = Some (w1, r)
    ∧ (r = Resolved true ∨ r = Rejected TimedOut)
    ∧ (1 ≤ n ≤ 33)%nat
    ∧ sent w1 = (sent w ++ replicate n probe)%list
    ∧ runTests fuel w = Some (afterWait w1).1.
Proof.
  intros Hsleep Hclock Hfuel.
  destruct (attempt_terminates 8000 250 ltac:(lia) Hsleep Hclock 33%nat fuel
              (dateNow (environment w)) w)
    as (w1 & r & n & Heq & Hn & Hs & Hr); [lia | lia |].
  exists w1, r, n. unfold Client.runTests, Client.waitForGraphQLEndpoint.
  by rewrite Heq.
Qed.
End ClientProperties.

(** X20 on a registration that the server rejects with status 409: the
    promise resolves all the same. *)
Lemma restRequest_resolves_on_any_status_witness :
  Client.restRequest ToyClient.E ToyClient.exchange ToyClient.stringify
    ToyClient.parse ToyClient.describe "POST" "/auth/register" None
    (Some Client.JsNull) ToyClient.conflict
  = (afterRequest ToyClient.exchange
       (Client.restOptions ToyClient.stringify ToyClient.describe "POST"
          "/auth/register" None (Some Client.JsNull)) ToyClient.conflict,
     Client.Resolved
       (Client.mkRestResult 409
          (Client.JsObject [("token", Client.JsString "taken")]))).
Proof.
  exact (restRequest_resolves_on_any_status ToyClient.E ToyClient.exchange
           ToyClient.stringify ToyClient.parse ToyClient.describe
           "POST" "/auth/register" None (Some Client.JsNull)
           ToyClient.conflict 409 "taken" eq_refl).
Defined.

Lemma ToyClient_sleep d e :
  ToyClient.dateNow e + d ≤ ToyClient.dateNow (ToyClient.sleep d e).
Proof. unfold ToyClient.dateNow, ToyClient.sleep. simpl. lia. Qed.

Lemma ToyClient_clock r e :
  ToyClient.dateNow e ≤ ToyClient.dateNow (ToyClient.exchange r e).1.
Proof.
  unfold ToyClient.dateNow, ToyClient.exchange.
  destruct e.2; simpl; lia.
Qed.

(** X24 on a server that is down: the wait ends, and so does the script. *)
Lemma runTests_terminates_witness :
  ∃ w1 r n,
    Client.waitForGraphQLEndpoint ToyClient.E ToyClient.exchange
      ToyClient.dateNow ToyClient.sleep 40 8000 250 ToyClient.down
    = Some (w1, r)
    ∧ (r = Client.Resolved true ∨ r = Client.Rejected Client.TimedOut)
    ∧ (1 ≤ n ≤ 33)%nat
    ∧ Client.sent w1
      = (Client.sent ToyClient.down ++ replicate n Client.probe)%list
    ∧ Client.runTests ToyClient.E ToyClient.exchange ToyClient.dateNow
        ToyClient.sleep ToyClient.stringify ToyClient.parse
        ToyClient.describe ToyClient.plusOneHour ToyClient.toISOString 40
        ToyClient.down
      = Some (Client.afterWait ToyClient.E ToyClient.exchange
                ToyClient.dateNow ToyClient.stringify ToyClient.parse
                ToyClient.describe ToyClient.plusOneHour
                ToyClient.toISOString w1).1.
Proof.
  apply (runTests_terminates ToyClient.E ToyClient.exchange ToyClient.dateNow
           ToyClient.sleep ToyClient.stringify ToyClient.parse
           ToyClient.describe ToyClient.plusOneHour ToyClient.toISOString
           40 ToyClient.down ToyClient_sleep ToyClient_clock).
  lia.
Defined.
